(** * Field-name resolution in [tutorials/functionObject/openfoam-ensemble.py]

    A shallow embedding of [get_field_name] and of the loop that queries
    the ensemble members, with the SmartRedis client as explicit state and
    the Jinja2 environment as an interface.  *)

From Stdlib Require Import Ascii.
From stdpp Require Import gmap strings list pretty.

Local Open Scope string_scope.
Local Open Scope Z_scope.

(** ** Python values, exceptions and results *)

(** The values the script hands to a template as keyword arguments. *)
Inductive PyVal :=
| PyNone
| PyInt (z : Z)
| PyStr (s : string).

(** Python's [str(v)]. *)
Definition py_str (v : PyVal) : string :=
  match v with
  | PyNone => "None"
  | PyInt z => pretty z
  | PyStr s => s
  end.

(** [str(b)] for a Python [bool], as an f-string prints it. *)
Definition py_str_bool (b : bool) : string :=
  if b then "True" else "False".

(** The exceptions the modelled code can raise.
    - [KeyError k]: [os.environ[k]] on a variable that is not set;
    - [ValueError msg]: raised by [get_field_name] itself;
    - [IndexError]: [l[0]] on an empty list;
    - [StoreError msg]: an error reported by the store client;
    - [TypeError msg]: an operation applied to a value of the wrong type
      while a template is rendered;
    - [TemplateError msg]: an error reported by the template engine, or a
      template that the model of the engine does not cover. *)
Inductive exn :=
| KeyError (k : string)
| ValueError (msg : string)
| IndexError
| StoreError (msg : string)
| TypeError (msg : string)
| TemplateError (msg : string).

Inductive result (A : Type) :=
| Ok (a : A)
| Raise (e : exn).
Arguments Ok {A} a.
Arguments Raise {A} e.

#[export] Instance result_ret : MRet result := λ A a, Ok a.
#[export] Instance result_bind : MBind result := λ A B f r,
  match r with
  | Ok a => f a
  | Raise e => Raise e
  end.

(** ** The template engine

    [env = jj.Environment()] followed by [env.from_string(s).render(...)].
    The resolver only needs these two operations; the keyword arguments
    of [render] are a dictionary from names to values. *)
Class Environment := {
  template : Type;
  from_string : string → result template;
  render : template → gmap string PyVal → result string
}.

(** ** Jinja2 with default settings, restricted to plain substitution

    The fragment: literal text without line breaks and [{{ name }}]
    expressions, where [name] is an ASCII identifier that is not in
    [reserved].  [Environment()] is created without arguments, hence
    [undefined=Undefined] (an undefined name prints as the empty string),
    [autoescape=False] and no [finalize]. *)
Module Jinja.

Inductive node :=
| TData (d : string)
| TName (x : string).

Definition is_ident_start (c : Ascii.ascii) : bool :=
  let n := Ascii.nat_of_ascii c in
  ((65 <=? n) && (n <=? 90) || (97 <=? n) && (n <=? 122) || (n =? 95))%nat.

Definition is_ident_char (c : Ascii.ascii) : bool :=
  let n := Ascii.nat_of_ascii c in
  (is_ident_start c || (48 <=? n) && (n <=? 57))%nat.

Definition is_newline (c : Ascii.ascii) : bool :=
  let n := Ascii.nat_of_ascii c in ((n =? 10) || (n =? 13))%nat.

(** Names left out of the fragment: constants and operators of the
    expression language, statement keywords, the globals of the default
    environment, and the names Jinja2 binds itself inside a template. *)
Definition reserved : list string :=
  [ "true"; "false"; "none"; "True"; "False"; "None";
    "and"; "or"; "not"; "in"; "is"; "if"; "else"; "elif";
    "for"; "endfor"; "endif"; "block"; "endblock"; "extends"; "include";
    "import"; "from"; "as"; "macro"; "endmacro"; "call"; "endcall";
    "filter"; "endfilter"; "set"; "endset"; "with"; "endwith";
    "autoescape"; "endautoescape"; "print"; "raw"; "endraw"; "do";
    "break"; "continue"; "recursive"; "ignore"; "missing"; "without";
    "range"; "dict"; "lipsum"; "cycler"; "joiner"; "namespace";
    "self"; "super"; "loop"; "caller"; "varargs"; "kwargs"; "context" ].

Definition is_reserved (x : string) : bool :=
  bool_decide (x ∈ reserved).

(** Where the lexer is: in literal text, just after [{{], inside a
    name (read so far, reversed), or after a name and before [}}]. *)
Inductive lex_state :=
| LData
| LOpen
| LName (acc : string)
| LClose (x : string).

Definition push_data (c : Ascii.ascii) (ns : list node) : list node :=
  match ns with
  | TData d :: r => TData (String c d) :: r
  | _ => TData (String c "") :: ns
  end.

Definition emit_name (x : string) (rest : option (list node))
  : option (list node) :=
  if is_reserved x then None else (TName x ::.) <$> rest.

(** [None]: the source is not in the fragment (it is malformed, or uses
    statements, comments, filters, whitespace control, line breaks...). *)
Fixpoint lex (st : lex_state) (s : string) : option (list node) :=
  match s with
  | EmptyString =>
      match st with
      | LData => Some []
      | _ => None
      end
  | String c s' =>
      match st with
      | LData =>
          if Ascii.eqb c "{"%char then
            match s' with
            | String c' s'' =>
                if Ascii.eqb c' "{"%char then lex LOpen s''
                else if Ascii.eqb c' "%"%char || Ascii.eqb c' "#"%char then None
                else push_data c <$> lex LData s'
            | EmptyString => Some [TData (String c "")]
            end
          else if is_newline c then None
          else push_data c <$> lex LData s'
      | LOpen =>
          if Ascii.eqb c " "%char then lex LOpen s'
          else if is_ident_start c then lex (LName (String c "")) s'
          else None
      | LName acc =>
          if is_ident_char c then lex (LName (String c acc)) s'
          else if Ascii.eqb c " "%char then lex (LClose (String.rev acc)) s'
          else if Ascii.eqb c "}"%char then
            match s' with
            | String c' s'' =>
                if Ascii.eqb c' "}"%char
                then emit_name (String.rev acc) (lex LData s'')
                else None
            | EmptyString => None
            end
          else None
      | LClose x =>
          if Ascii.eqb c " "%char then lex (LClose x) s'
          else if Ascii.eqb c "}"%char then
            match s' with
            | String c' s'' =>
                if Ascii.eqb c' "}"%char
                then emit_name x (lex LData s'')
                else None
            | EmptyString => None
            end
          else None
      end
  end.

Definition parse (s : string) : option (list node) := lex LData s.

(** What one node prints: text as it is, a name by [str] of its value,
    and the empty string when the name is undefined. *)
Definition render_node (ctx : gmap string PyVal) (n : node) : string :=
  match n with
  | TData d => d
  | TName x =>
      match ctx !! x with
      | Some v => py_str v
      | None => ""
      end
  end.

Fixpoint render_nodes (ctx : gmap string PyVal) (ns : list node) : string :=
  match ns with
  | [] => ""
  | n :: ns' => render_node ctx n +:+ render_nodes ctx ns'
  end.

Definition jinja_from_string (s : string) : result (list node) :=
  match parse s with
  | Some ns => Ok ns
  | None => Raise (TemplateError ("template outside the modelled fragment: " +:+ s))
  end.

Definition jinja_render (ns : list node) (ctx : gmap string PyVal) : result string :=
  Ok (render_nodes ctx ns).

(** [jj.Environment()] *)
Definition env : Environment :=
  {| template := list node;
     from_string := jinja_from_string;
     render := jinja_render |}.

End Jinja.

(** ** The same engine with two of its filters

    Beside the plain references of [Jinja], [{{ name|int }}] and
    [{{ name|random }}].  [int] turns its argument into an integer and
    gives 0 for [None]; [random] picks one item of a sequence with Python's
    random generator.  [draw k n] stands for the state of that generator:
    the number below [n] it yields at its [k]-th use in a rendering.  What
    these filters do on the values left out here (an undefined name, [int]
    on a string) is not modelled. *)
Module JinjaF.

Inductive filter :=
| FInt
| FRandom.

Inductive node :=
| FData (d : string)
| FName (x : string)
| FApply (x : string) (f : filter).

Definition filter_of (nm : string) : option filter :=
  if bool_decide (nm = "int") then Some FInt
  else if bool_decide (nm = "random") then Some FRandom
  else None.

(** The states of [Jinja.lex_state], then: after [|], inside the name of
    the filter (read so far, reversed), and after it. *)
Inductive lex_state :=
| LData
| LOpen
| LName (acc : string)
| LClose (x : string)
| LPipe (x : string)
| LFilter (x : string) (acc : string)
| LEnd (x : string) (f : filter).

Definition push_data (c : Ascii.ascii) (ns : list node) : list node :=
  match ns with
  | FData d :: r => FData (String c d) :: r
  | _ => FData (String c "") :: ns
  end.

Definition emit_name (x : string) (rest : option (list node))
  : option (list node) :=
  if Jinja.is_reserved x then None else (FName x ::.) <$> rest.

Definition emit_apply (x : string) (f : option filter) (rest : option (list node))
  : option (list node) :=
  match f with
  | Some f => (FApply x f ::.) <$> rest
  | None => None
  end.

Definition enter_pipe (x : string) (rest : option (list node))
  : option (list node) :=
  if Jinja.is_reserved x then None else rest.

Fixpoint lex (st : lex_state) (s : string) : option (list node) :=
  match s with
  | EmptyString =>
      match st with
      | LData => Some []
      | _ => None
      end
  | String c s' =>
      match st with
      | LData =>
          if Ascii.eqb c "{"%char then
            match s' with
            | String c' s'' =>
                if Ascii.eqb c' "{"%char then lex LOpen s''
                else if Ascii.eqb c' "%"%char || Ascii.eqb c' "#"%char then None
                else push_data c <$> lex LData s'
            | EmptyString => Some [FData (String c "")]
            end
          else if Jinja.is_newline c then None
          else push_data c <$> lex LData s'
      | LOpen =>
          if Ascii.eqb c " "%char then lex LOpen s'
          else if Jinja.is_ident_start c then lex (LName (String c "")) s'
          else None
      | LName acc =>
          if Jinja.is_ident_char c then lex (LName (String c acc)) s'
          else if Ascii.eqb c " "%char then lex (LClose (String.rev acc)) s'
          else if Ascii.eqb c "}"%char then
            match s' with
            | String c' s'' =>
                if Ascii.eqb c' "}"%char
                then emit_name (String.rev acc) (lex LData s'')
                else None
            | EmptyString => None
            end
          else if Ascii.eqb c "|"%char
          then enter_pipe (String.rev acc) (lex (LPipe (String.rev acc)) s')
          else None
      | LClose x =>
          if Ascii.eqb c " "%char then lex (LClose x) s'
          else if Ascii.eqb c "}"%char then
            match s' with
            | String c' s'' =>
                if Ascii.eqb c' "}"%char
                then emit_name x (lex LData s'')
                else None
            | EmptyString => None
            end
          else if Ascii.eqb c "|"%char
          then enter_pipe x (lex (LPipe x) s')
          else None
      | LPipe x =>
          if Ascii.eqb c " "%char then lex (LPipe x) s'
          else if Jinja.is_ident_start c then lex (LFilter x (String c "")) s'
          else None
      | LFilter x acc =>
          if Jinja.is_ident_char c then lex (LFilter x (String c acc)) s'
          else if Ascii.eqb c " "%char then
            match filter_of (String.rev acc) with
            | Some f => lex (LEnd x f) s'
            | None => None
            end
          else if Ascii.eqb c "}"%char then
            match s' with
            | String c' s'' =>
                if Ascii.eqb c' "}"%char
                then emit_apply x (filter_of (String.rev acc)) (lex LData s'')
                else None
            | EmptyString => None
            end
          else None
      | LEnd x f =>
          if Ascii.eqb c " "%char then lex (LEnd x f) s'
          else if Ascii.eqb c "}"%char then
            match s' with
            | String c' s'' =>
                if Ascii.eqb c' "}"%char
                then emit_apply x (Some f) (lex LData s'')
                else None
            | EmptyString => None
            end
          else None
      end
  end.

Definition parse (s : string) : option (list node) := lex LData s.

Definition not_modelled {A} (what : string) : result A :=
  Raise (TemplateError ("outside the modelled fragment: " +:+ what)).

(** [value|int]: [int(value)], and 0 when that fails on [None]. *)
Definition apply_int (v : option PyVal) : result string :=
  match v with
  | Some (PyInt z) => Ok (pretty z)
  | Some PyNone => Ok "0"
  | _ => not_modelled "int"
  end.

(** [value|random] with the generator about to yield [pick n] below [n]:
    one character of a string, nothing for the empty string, and
    [TypeError] for a value without a length.  The second component tells
    whether the generator was used. *)
Definition apply_random (pick : nat → nat) (v : option PyVal) : result string * bool :=
  match v with
  | Some (PyStr s) =>
      match String.get (pick (String.length s) `mod` String.length s) s with
      | Some c => (Ok (String c ""), true)
      | None => (Ok "", false)
      end
  | Some (PyInt _) => (Raise (TypeError "object of type 'int' has no len()"), false)
  | Some PyNone => (Raise (TypeError "object of type 'NoneType' has no len()"), false)
  | None => (not_modelled "random", false)
  end.

(** The nodes are rendered from left to right; [k] counts the uses of
    the generator so far. *)
Fixpoint render_nodes (draw : nat → nat → nat) (k : nat)
    (ctx : gmap string PyVal) (ns : list node) : result string :=
  match ns with
  | [] => Ok ""
  | FData d :: ns' =>
      rest ← render_nodes draw k ctx ns'; Ok (d +:+ rest)
  | FName x :: ns' =>
      rest ← render_nodes draw k ctx ns';
      Ok (Jinja.render_node ctx (Jinja.TName x) +:+ rest)
  | FApply x FInt :: ns' =>
      piece ← apply_int (ctx !! x);
      rest ← render_nodes draw k ctx ns';
      Ok (piece +:+ rest)
  | FApply x FRandom :: ns' =>
      let (shown, used) := apply_random (draw k) (ctx !! x) in
      piece ← shown;
      rest ← render_nodes draw (if used then S k else k) ctx ns';
      Ok (piece +:+ rest)
  end.

Definition jinja_from_string (s : string) : result (list node) :=
  match parse s with
  | Some ns => Ok ns
  | None => not_modelled s
  end.

(** [jj.Environment()], with its random generator in state [draw]. *)
Definition env (draw : nat → nat → nat) : Environment :=
  {| template := list node;
     from_string := jinja_from_string;
     render := λ ns ctx, render_nodes draw 0 ctx ns |}.

(** The plain templates among these. *)
Definition of_state (st : Jinja.lex_state) : lex_state :=
  match st with
  | Jinja.LData => LData
  | Jinja.LOpen => LOpen
  | Jinja.LName acc => LName acc
  | Jinja.LClose x => LClose x
  end.

Definition of_node (n : Jinja.node) : node :=
  match n with
  | Jinja.TData d => FData d
  | Jinja.TName x => FName x
  end.

End JinjaF.

(** ** The store client

    A SmartRedis [Client] is a mutable object: the data source and the four
    ensemble-prefix toggles decide under which prefix the keys of the next
    operations are looked up.  When it is created the client reads the
    prefixes it may be pointed at from SSKEYIN, and [set_data_source]
    refuses any other name.  The store behind it is opaque; what it
    answers is a function of the addressing state the client has at the
    time of the call and of the arguments of the call. *)

Record Entity := { name : string }.

Record Addressing := {
  data_source : string;
  dataset_prefix : bool;
  list_prefix : bool;
  model_prefix : bool;
  tensor_prefix : bool
}.

(** A dataset exposes named string-metadata fields, each a list of strings. *)
Record Dataset := { meta_strings : gmap string (list string) }.

(** [store_dataset_exists a ds k]: what the store answers to the
    existence check number [k] (from 0) of a poll for [ds], made by a
    client in addressing state [a]. *)
Record Store := {
  store_dataset_exists : Addressing → string → nat → bool;
  store_get_dataset : Addressing → string → result Dataset;
  store_tensor_exists : Addressing → string → bool
}.

(** The checks number [k], [k + 1], ..., [k + n - 1], stopping at the
    first that finds the dataset. *)
Fixpoint poll_checks (present : nat → bool) (k n : nat) : bool :=
  match n with
  | O => false
  | S n' => present k || poll_checks present (S k) n'
  end.

(** What [poll_dataset(ds, poll_frequency_ms, num_tries)] answers: the
    client checks up to [num_tries] times whether the dataset exists,
    sleeping [poll_frequency_ms] milliseconds after a check that did not
    find it. *)
Definition store_poll_dataset (s : Store) (a : Addressing) (ds : string)
    (poll_frequency_ms num_tries : Z) : bool :=
  poll_checks (store_dataset_exists s a ds) 0 (Z.to_nat num_tries).

(** The client methods the script calls, with their arguments, in the
    order of the parameters of the client. *)
Inductive call :=
| SetDataSource (src : string)
| UseDatasetEnsemblePrefix (b : bool)
| UseListEnsemblePrefix (b : bool)
| UseModelEnsemblePrefix (b : bool)
| UseTensorEnsemblePrefix (b : bool)
| PollDataset (ds : string) (poll_frequency_ms num_tries : Z)
| GetDataset (ds : string)
| TensorExists (key : string).

(** [key_prefixes] are the prefixes the client read from SSKEYIN when it
    was created; [calls] records the method calls made on the client,
    oldest first. *)
Record Client := {
  addressing : Addressing;
  store : Store;
  key_prefixes : list string;
  calls : list call
}.

(** What the script can observe and change: the one client it creates,
    [os.environ], and the lines it has printed. *)
Record World := {
  client : Client;
  environ : gmap string string;
  stdout : list string
}.

(** ** Computations that change the world and may raise

    An exception keeps the changes made before it, as in Python. *)
Definition M (A : Type) : Type := World → World * result A.

#[export] Instance M_ret : MRet M := λ A a w, (w, Ok a).
#[export] Instance M_bind : MBind M := λ A B f m w,
  match m w with
  | (w', Ok a) => f a w'
  | (w', Raise e) => (w', Raise e)
  end.

Definition raise {A} (e : exn) : M A := λ w, (w, Raise e).

(** A pure step that may raise. *)
Definition lift {A} (r : result A) : M A := λ w, (w, r).

Definition with_addressing (f : Addressing → Addressing) (ev : call) : M unit :=
  λ w,
    let c := client w in
    ({| client := {| addressing := f (addressing c);
                     store := store c;
                     key_prefixes := key_prefixes c;
                     calls := calls c ++ [ev] |};
        environ := environ w;
        stdout := stdout w |}, Ok tt).

Definition ask_store {A} (q : Store → Addressing → A) (ev : call) : M A :=
  λ w,
    let c := client w in
    ({| client := {| addressing := addressing c;
                     store := store c;
                     key_prefixes := key_prefixes c;
                     calls := calls c ++ [ev] |};
        environ := environ w;
        stdout := stdout w |}, Ok (q (store c) (addressing c))).

Definition unknown_source_message (src : string) : string :=
  "Client error: data source " +:+ src +:+
  " could not be found during client initialization.".

(** [client.set_data_source(src)]: the client takes [src] as its data
    source if it is one of the prefixes it read when it was created, and
    raises otherwise, leaving its addressing state as it was. *)
Definition set_data_source (src : string) : M unit :=
  λ w,
    if bool_decide (src ∈ key_prefixes (client w)) then
      with_addressing
        (λ a, {| data_source := src;
                 dataset_prefix := dataset_prefix a;
                 list_prefix := list_prefix a;
                 model_prefix := model_prefix a;
                 tensor_prefix := tensor_prefix a |})
        (SetDataSource src) w
    else
      (with_addressing (λ a, a) (SetDataSource src);;
       raise (StoreError (unknown_source_message src))) w.

Definition use_dataset_ensemble_prefix (b : bool) : M unit :=
  with_addressing
    (λ a, {| data_source := data_source a;
             dataset_prefix := b;
             list_prefix := list_prefix a;
             model_prefix := model_prefix a;
             tensor_prefix := tensor_prefix a |})
    (UseDatasetEnsemblePrefix b).

Definition use_list_ensemble_prefix (b : bool) : M unit :=
  with_addressing
    (λ a, {| data_source := data_source a;
             dataset_prefix := dataset_prefix a;
             list_prefix := b;
             model_prefix := model_prefix a;
             tensor_prefix := tensor_prefix a |})
    (UseListEnsemblePrefix b).

Definition use_model_ensemble_prefix (b : bool) : M unit :=
  with_addressing
    (λ a, {| data_source := data_source a;
             dataset_prefix := dataset_prefix a;
             list_prefix := list_prefix a;
             model_prefix := b;
             tensor_prefix := tensor_prefix a |})
    (UseModelEnsemblePrefix b).

Definition use_tensor_ensemble_prefix (b : bool) : M unit :=
  with_addressing
    (λ a, {| data_source := data_source a;
             dataset_prefix := dataset_prefix a;
             list_prefix := list_prefix a;
             model_prefix := model_prefix a;
             tensor_prefix := b |})
    (UseTensorEnsemblePrefix b).

Definition poll_dataset (ds : string) (poll_frequency_ms num_tries : Z) : M bool :=
  ask_store (λ s a, store_poll_dataset s a ds poll_frequency_ms num_tries)
            (PollDataset ds poll_frequency_ms num_tries).

Definition get_dataset (ds : string) : M Dataset :=
  r ← ask_store (λ s a, store_get_dataset s a ds) (GetDataset ds);
  lift r.

Definition tensor_exists (key : string) : M bool :=
  ask_store (λ s a, store_tensor_exists s a key) (TensorExists key).

(** [meta.get_meta_strings(k)]: the strings stored under [k]; the client
    library reports a field that does not exist as an error. *)
Definition get_meta_strings (meta : Dataset) (k : string) : result (list string) :=
  match meta_strings meta !! k with
  | Some l => Ok l
  | None => Raise (StoreError ("The metadata field " +:+ k +:+ " does not exist."))
  end.

(** [l[0]] *)
Definition py_first (l : list string) : result string :=
  match l with
  | x :: _ => Ok x
  | [] => Raise IndexError
  end.

(** [os.environ[k]] *)
Definition environ_get (k : string) : M string :=
  λ w,
    match environ w !! k with
    | Some v => (w, Ok v)
    | None => (w, Raise (KeyError k))
    end.

(** [os.environ[k] = v] *)
Definition environ_set (k v : string) : M unit :=
  λ w,
    ({| client := client w;
        environ := <[k := v]> (environ w);
        stdout := stdout w |}, Ok tt).

Definition print (line : string) : M unit :=
  λ w,
    ({| client := client w;
        environ := environ w;
        stdout := stdout w ++ [line] |}, Ok tt).

(** ** The resolver

    [get_field_name(client, fn_name, field_name, processor=0, timestep=None,
    ensemble_member=None)], lines 19 to 46; [client] is the client of the
    world.  A call that leaves [timestep] or [ensemble_member] out passes
    [None]. *)

Definition get_field_name `{Environment}
    (fn_name field_name : string) (processor : Z)
    (timestep : option Z) (ensemble_member : option Entity) : M string :=
  match ensemble_member with
  | Some e =>
      set_data_source (name e);;
      use_dataset_ensemble_prefix true;;
      use_list_ensemble_prefix true;;
      use_model_ensemble_prefix true;;
      use_tensor_ensemble_prefix true
  | None => mret tt
  end;;
  let ds_name := fn_name +:+ "_metadata" in
  ds_found ← poll_dataset ds_name 10 1000;
  if negb ds_found then
    prefix ← environ_get "SSKEYIN";
    raise (ValueError ("Could not find dataset " +:+ ds_name +:+
                       " under prefix '" +:+ prefix +:+ "'"))
  else
    meta ← get_dataset ds_name;
    ds_src ← lift (get_meta_strings meta "dataset" ≫= py_first);
    ds_naming ← lift (from_string ds_src);
    ds_name ← lift (render ds_naming
                      {[ "time_index" := from_option PyInt PyNone timestep;
                         "mpi_rank" := PyInt processor ]});
    f_src ← lift (get_meta_strings meta "field" ≫= py_first);
    f_naming ← lift (from_string f_src);
    f_name ← lift (render f_naming
                     {[ "name" := PyStr field_name;
                        "patch" := PyStr "internal" ]});
    mret ("{" +:+ ds_name +:+ "}." +:+ f_name).

(** ** The query over the ensemble (the loop that ends the script) *)

Definition fn_name : string := "pUPhiTest".

(** The body of the loop, lines 105 to 107. *)
Definition query_member `{Environment} (e : Entity) : M unit :=
  U_name ← get_field_name fn_name "U" 0 (Some 1) (Some e);
  t_exists ← tensor_exists U_name;
  print ("--- " +:+ U_name +:+ " is found for member " +:+ name e +:+
         "? " +:+ py_str_bool t_exists).

Fixpoint query_ensemble `{Environment} (ensemble : list Entity) : M unit :=
  match ensemble with
  | [] => mret tt
  | e :: rest => query_member e;; query_ensemble rest
  end.

(** Lines 95 and 96: SSKEYIN becomes the members' names joined by
    commas, and is printed. *)
Definition set_data_sources (ensemble : list Entity) : M unit :=
  environ_set "SSKEYIN" (String.concat "," (map name ensemble));;
  v ← environ_get "SSKEYIN";
  print v.

(** Lines 95 to 107.  The client that line 100 creates is the client of
    the world the computation starts in; its [key_prefixes] are what it
    reads from SSKEYIN at that line. *)
Definition query_script `{Environment} (ensemble : list Entity) : M unit :=
  set_data_sources ensemble;;
  query_ensemble ensemble.

(** ** A store and a world to run the definitions on *)
Module Demo.

Definition naming (ds f : list string) : Dataset :=
  {| meta_strings := {[ "dataset" := ds; "field" := f ]} |}.

(** A store in which every member published [meta] and in which only
    the member named [owner] wrote the tensors listed in [keys]. *)
Definition store_of (meta : Dataset) (owner : string) (keys : list string) : Store :=
  {| store_dataset_exists := λ a ds _, bool_decide (ds = "pUPhiTest_metadata");
     store_get_dataset := λ a ds,
       if bool_decide (ds = "pUPhiTest_metadata") then Ok meta
       else Raise (StoreError ("no dataset " +:+ ds));
     store_tensor_exists := λ a key,
       tensor_prefix a && bool_decide (data_source a = owner)
       && bool_decide (key ∈ keys) |}.

(** A store that holds nothing. *)
Definition empty_store : Store :=
  {| store_dataset_exists := λ _ _ _, false;
     store_get_dataset := λ _ ds, Raise (StoreError ("no dataset " +:+ ds));
     store_tensor_exists := λ _ _, false |}.

(** A client created while SSKEYIN held the names of two members. *)
Definition fresh_client (s : Store) : Client :=
  {| addressing := {| data_source := "";
                      dataset_prefix := false;
                      list_prefix := false;
                      model_prefix := false;
                      tensor_prefix := false |};
     store := s;
     key_prefixes := ["mesh-study_0"; "mesh-study_1"];
     calls := [] |}.

Definition world_of (s : Store) (vars : gmap string string) : World :=
  {| client := fresh_client s; environ := vars; stdout := [] |}.

Definition std_naming : Dataset :=
  naming ["ts{{time_index}}_p{{mpi_rank}}"] ["{{name}}_{{patch}}"].

Definition w0 : World :=
  world_of (store_of std_naming "mesh-study_1" ["{ts1_p0}.U_internal"])
           {[ "SSKEYIN" := "mesh-study_0,mesh-study_1" ]}.

(** The publisher wrote the dataset template only. *)
Definition no_field_naming : Dataset :=
  {| meta_strings := {[ "dataset" := ["ts{{time_index}}"] ]} |}.

Definition w_no_field : World :=
  world_of (store_of no_field_naming "mesh-study_0" []) ∅.

(** Two strings under each field. *)
Definition two_schemes : Dataset :=
  naming ["ts{{time_index}}"; "step{{time_index}}"] ["{{name}}"; "{{patch}}"].

Definition w_two_schemes : World :=
  world_of (store_of two_schemes "mesh-study_0" []) ∅.

Definition std_naming_extra : Dataset :=
  naming ["ts{{time_index}}_p{{mpi_rank}}"; "unused"] ["{{name}}_{{patch}}"].

Definition w_extra : World :=
  world_of (store_of std_naming_extra "mesh-study_1" []) ∅.

(** The dataset template refers to [step], which the resolver never
    supplies. *)
Definition stray_naming : Dataset :=
  naming ["ts{{step}}_p{{mpi_rank}}"] ["{{name}}_{{patch}}"].

Definition w_stray : World :=
  world_of (store_of stray_naming "mesh-study_0" [])
           {[ "SSKEYIN" := "mesh-study_0" ]}.

(** The publisher writes its metadata while the resolver is polling:
    the dataset is there from the eleventh check on. *)
Definition late_store : Store :=
  {| store_dataset_exists := λ a ds k,
       bool_decide (ds = "pUPhiTest_metadata") && (10 <=? k)%nat;
     store_get_dataset := λ a ds,
       if bool_decide (ds = "pUPhiTest_metadata") then Ok std_naming
       else Raise (StoreError ("no dataset " +:+ ds));
     store_tensor_exists := λ _ _, false |}.

Definition w_late : World :=
  world_of late_store {[ "SSKEYIN" := "mesh-study_0,mesh-study_1" ]}.

(** The field template picks a character of the patch at random. *)
Definition random_naming : Dataset :=
  naming ["ts{{time_index}}"] ["{{name}}_{{patch|random}}"].

Definition w_random : World :=
  world_of (store_of random_naming "mesh-study_0" []) ∅.



End Demo.

(** ** What one call of the resolver does, step by step *)

(** The addressing state after the first step of the resolver. *)
Definition scoped (ensemble_member : option Entity) (a : Addressing) : Addressing :=
  match ensemble_member with
  | Some e => {| data_source := name e;
                 dataset_prefix := true;
                 list_prefix := true;
                 model_prefix := true;
                 tensor_prefix := true |}
  | None => a
  end.

(** The client calls of that first step. *)
Definition scope_calls (ensemble_member : option Entity) : list call :=
  match ensemble_member with
  | Some e => [ SetDataSource (name e);
                UseDatasetEnsemblePrefix true;
                UseListEnsemblePrefix true;
                UseModelEnsemblePrefix true;
                UseTensorEnsemblePrefix true ]
  | None => []
  end.

Definition is_lookup (ev : call) : bool :=
  match ev with
  | PollDataset _ _ _ | GetDataset _ | TensorExists _ => true
  | _ => false
  end.

Definition is_tensor_exists (ev : call) : bool :=
  match ev with
  | TensorExists _ => true
  | _ => false
  end.

(** [env.from_string(src).render(...)], the keyword arguments as a dictionary. *)
Definition render_template `{Environment}
    (src : string) (ctx : gmap string PyVal) : result string :=
  t ← from_string src; render t ctx.

Definition ds_kwargs (timestep : option Z) (processor : Z) : gmap string PyVal :=
  {[ "time_index" := from_option PyInt PyNone timestep;
     "mpi_rank" := PyInt processor ]}.

Definition field_kwargs (field_name : string) : gmap string PyVal :=
  {[ "name" := PyStr field_name; "patch" := PyStr "internal" ]}.

(** Lines 42 to 46 of the script, once [meta] has been fetched. *)
Definition key_of_meta `{Environment} (meta : Dataset)
    (field_name : string) (processor : Z) (timestep : option Z) : result string :=
  ds_src ← get_meta_strings meta "dataset" ≫= py_first;
  ds_name ← render_template ds_src (ds_kwargs timestep processor);
  f_src ← get_meta_strings meta "field" ≫= py_first;
  f_name ← render_template f_src (field_kwargs field_name);
  Ok ("{" +:+ ds_name +:+ "}." +:+ f_name).

Definition not_found_message (ds_name prefix : string) : string :=
  "Could not find dataset " +:+ ds_name +:+ " under prefix '" +:+ prefix +:+ "'".

Definition log_calls (evs : list call) (a : Addressing) (w : World) : World :=
  {| client := {| addressing := a;
                  store := store (client w);
                  key_prefixes := key_prefixes (client w);
                  calls := calls (client w) ++ evs |};
     environ := environ w;
     stdout := stdout w |}.

(** The world [w] with the client in addressing state [a]. *)
Definition with_scope (a : Addressing) (w : World) : World :=
  {| client := {| addressing := a;
                  store := store (client w);
                  key_prefixes := key_prefixes (client w);
                  calls := calls (client w) |};
     environ := environ w;
     stdout := stdout w |}.

(** The line the loop prints for a member. *)
Definition report_line (U_name : string) (e : Entity) (t_exists : bool) : string :=
  "--- " +:+ U_name +:+ " is found for member " +:+ name e +:+
  "? " +:+ py_str_bool t_exists.

(** The same line written out, with the answer as Python prints a
    [bool]. *)
Definition printed_line (U_name : string) (e : Entity) (t_exists : bool) : string :=
  "--- " +:+ U_name +:+ " is found for member " +:+ name e +:+ "? " +:+
  (if t_exists then "True" else "False").

(** The world after one more [tensor_exists] call and its printed line. *)
Definition reported (U_name : string) (e : Entity) (t_exists : bool) (w : World) : World :=
  {| client := {| addressing := addressing (client w);
                  store := store (client w);
                  key_prefixes := key_prefixes (client w);
                  calls := calls (client w) ++ [TensorExists U_name] |};
     environ := environ w;
     stdout := stdout w ++ [report_line U_name e t_exists] |}.

Definition tensor_checks (evs : list call) : list call :=
  filter (λ ev, is_tensor_exists ev = true) evs.

(** Is [n] text, or a reference to one of [names]? *)
Definition is_supplied (names : list string) (n : Jinja.node) : bool :=
  match n with
  | Jinja.TData _ => true
  | Jinja.TName x => bool_decide (x ∈ names)
  end.

(** The template with the references to other names erased. *)
Fixpoint supplied_only (names : list string) (ns : list Jinja.node) : list Jinja.node :=
  match ns with
  | [] => []
  | n :: ns' =>
      if is_supplied names n then n :: supplied_only names ns'
      else supplied_only names ns'
  end.

(** The data sources set on the client, in the order of the calls. *)
Definition sources (evs : list call) : list string :=
  omap (λ ev, match ev with
              | SetDataSource src => Some src
              | _ => None
              end) evs.


(** Does the client accept the member as its data source?  A call
    without a member asks nothing of it. *)
Definition knows (c : Client) (ensemble_member : option Entity) : bool :=
  match ensemble_member with
  | Some e => bool_decide (name e ∈ key_prefixes c)
  | None => true
  end.

(** [s] occurs in [t]. *)
Definition occurs_in (s t : string) : Prop :=
  ∃ pre post, t = pre +:+ s +:+ post.

Ltac run_M :=
  cbv [mbind mret M_bind M_ret result_bind result_ret raise lift
       with_addressing ask_store environ_get environ_set print
       set_data_source use_dataset_ensemble_prefix use_list_ensemble_prefix
       use_model_ensemble_prefix use_tensor_ensemble_prefix
       poll_dataset get_dataset tensor_exists log_calls];
  cbn [client addressing store key_prefixes calls environ stdout fst snd
       data_source dataset_prefix list_prefix model_prefix tensor_prefix].

Lemma string_app_assoc (s1 s2 s3 : string) :
  (s1 +:+ s2) +:+ s3 = s1 +:+ s2 +:+ s3.
Proof.
  induction s1 as [|c s1 IH]; [reflexivity|].
  change (String c ((s1 +:+ s2) +:+ s3) = String c (s1 +:+ s2 +:+ s3)).
  by rewrite IH.
Qed.

Lemma occurs_in_app_l (s t pre : string) :
  occurs_in s t → occurs_in s (pre +:+ t).
Proof.
  intros (l & r & ->). exists (pre +:+ l), r. by rewrite string_app_assoc.
Qed.

Lemma occurs_in_app_r (s t post : string) :
  occurs_in s t → occurs_in s (t +:+ post).
Proof.
  intros (l & r & ->). exists l, (r +:+ post). by rewrite !string_app_assoc.
Qed.

Lemma occurs_in_here (s post : string) : occurs_in s (s +:+ post).
Proof. by exists "", post. Qed.

Lemma not_found_message_names ds_name prefix :
  occurs_in ds_name (not_found_message ds_name prefix) ∧
  occurs_in prefix (not_found_message ds_name prefix).
Proof.
  unfold not_found_message. split.
  - apply occurs_in_app_l, occurs_in_here.
  - do 3 apply occurs_in_app_l. apply occurs_in_here.
Qed.

(** ** The poll *)

Lemma poll_checks_true present n : ∀ k,
  poll_checks present k n = true ↔
  ∃ i, (k ≤ i < k + n)%nat ∧ present i = true.
Proof.
  induction n as [|n IH]; intros k; cbn [poll_checks].
  - split; [discriminate|]. intros (i & Hi & _). lia.
  - rewrite orb_true_iff, IH. split.
    + intros [Hk | (i & Hi & Hp)]; [exists k | exists i]; split; (lia || done).
    + intros (i & Hi & Hp). destruct (decide (i = k)) as [-> | Hne].
      * by left.
      * right. exists i. split; (lia || done).
Qed.

Lemma poll_checks_false present n k :
  poll_checks present k n = false ↔
  ∀ i, (k ≤ i < k + n)%nat → present i = false.
Proof.
  rewrite <- not_true_iff_false, poll_checks_true. split.
  - intros Hno i Hi. apply not_true_iff_false. intros Hp. apply Hno. by exists i.
  - intros Hall (i & Hi & Hp). by rewrite (Hall i Hi) in Hp.
Qed.

Section Resolver.
Context `{Environment}.

(** The scoping step succeeded (or there was none). *)
Lemma get_field_name_run fn_name field_name processor timestep ensemble_member w :
  let a := scoped ensemble_member (addressing (client w)) in
  let ds := fn_name +:+ "_metadata" in
  knows (client w) ensemble_member = true →
  get_field_name fn_name field_name processor timestep ensemble_member w =
    if store_poll_dataset (store (client w)) a ds 10 1000 then
      (log_calls (scope_calls ensemble_member ++ [PollDataset ds 10 1000; GetDataset ds]) a w,
       meta ← store_get_dataset (store (client w)) a ds;
       key_of_meta meta field_name processor timestep)
    else
      (log_calls (scope_calls ensemble_member ++ [PollDataset ds 10 1000]) a w,
       match environ w !! "SSKEYIN" with
       | Some prefix => Raise (ValueError (not_found_message ds prefix))
       | None => Raise (KeyError "SSKEYIN")
       end).
Proof.
  intros a ds Hknows. subst a ds. unfold get_field_name.
  destruct ensemble_member as [e|]; cbn [knows] in Hknows; run_M;
    rewrite ?Hknows; run_M; cbn [scoped scope_calls];
    unfold key_of_meta, render_template, ds_kwargs, field_kwargs,
      not_found_message; run_M;
    (destruct (store_poll_dataset _ _ _ _ _); cbn [negb]; run_M;
     rewrite <- ?app_assoc; cbn [app];
     [ repeat (case_match; try reflexivity)
     | destruct (environ w !! "SSKEYIN"); reflexivity ]).
Qed.

(** The client does not know the member: the call ends there. *)
Lemma get_field_name_refused fn_name field_name processor timestep e w :
  knows (client w) (Some e) = false →
  get_field_name fn_name field_name processor timestep (Some e) w =
    (log_calls [SetDataSource (name e)] (addressing (client w)) w,
     Raise (StoreError (unknown_source_message (name e)))).
Proof.
  intros Hknows. cbn [knows] in Hknows. unfold get_field_name. run_M.
  rewrite Hknows. reflexivity.
Qed.

(** The metadata dataset is there. *)
Lemma get_field_name_found fn_name field_name processor timestep ensemble_member w meta :
  let a := scoped ensemble_member (addressing (client w)) in
  let ds := fn_name +:+ "_metadata" in
  knows (client w) ensemble_member = true →
  store_poll_dataset (store (client w)) a ds 10 1000 = true →
  store_get_dataset (store (client w)) a ds = Ok meta →
  get_field_name fn_name field_name processor timestep ensemble_member w =
    (log_calls (scope_calls ensemble_member ++ [PollDataset ds 10 1000; GetDataset ds]) a w,
     key_of_meta meta field_name processor timestep).
Proof.
  intros a ds Hknows Hpoll Hget. rewrite get_field_name_run by done.
  fold a ds. by rewrite Hpoll, Hget.
Qed.

(** The metadata dataset never showed up. *)
Lemma get_field_name_missing fn_name field_name processor timestep ensemble_member w :
  let a := scoped ensemble_member (addressing (client w)) in
  let ds := fn_name +:+ "_metadata" in
  knows (client w) ensemble_member = true →
  store_poll_dataset (store (client w)) a ds 10 1000 = false →
  get_field_name fn_name field_name processor timestep ensemble_member w =
    (log_calls (scope_calls ensemble_member ++ [PollDataset ds 10 1000]) a w,
     match environ w !! "SSKEYIN" with
     | Some prefix => Raise (ValueError (not_found_message ds prefix))
     | None => Raise (KeyError "SSKEYIN")
     end).
Proof.
  intros a ds Hknows Hpoll. rewrite get_field_name_run by done.
  fold a ds. by rewrite Hpoll.
Qed.

(** Past the scoping step the client ends up with the scoped addressing
    and the log grows by the scoping calls, one poll and at most one
    fetch. *)
Lemma get_field_name_effect fn_name field_name processor timestep ensemble_member w :
  let a := scoped ensemble_member (addressing (client w)) in
  let ds := fn_name +:+ "_metadata" in
  knows (client w) ensemble_member = true →
  ∃ later,
    (get_field_name fn_name field_name processor timestep ensemble_member w).1 =
      log_calls (scope_calls ensemble_member ++ PollDataset ds 10 1000 :: later) a w
    ∧ (later = [] ∨ later = [GetDataset ds]).
Proof.
  intros a ds Hknows. rewrite get_field_name_run by done. fold a ds.
  destruct (store_poll_dataset _ _ _ _ _).
  - exists [GetDataset ds]. split; [reflexivity | by right].
  - exists []. split; [reflexivity | by left].
Qed.

(** In every case the call only appends to the log of the client: no
    [tensor_exists], the member's name as the one data source asked for,
    and the scoped addressing if and only if the client knows the
    member. *)
Lemma get_field_name_trace fn_name field_name processor timestep ensemble_member w :
  ∃ new,
    (get_field_name fn_name field_name processor timestep ensemble_member w).1 =
      log_calls new
        (if knows (client w) ensemble_member
         then scoped ensemble_member (addressing (client w))
         else addressing (client w)) w
    ∧ tensor_checks new = []
    ∧ sources new = match ensemble_member with Some e => [name e] | None => [] end.
Proof.
  destruct (knows (client w) ensemble_member) eqn:Hknows.
  - destruct (get_field_name_effect fn_name field_name processor timestep
                ensemble_member w Hknows) as (later & -> & Hlater).
    eexists. split; [reflexivity|].
    destruct ensemble_member; destruct Hlater as [-> | ->]; by split.
  - destruct ensemble_member as [e|]; [|discriminate Hknows].
    rewrite get_field_name_refused by done.
    eexists. split; [reflexivity|]. by split.
Qed.

(** The key only depends on the first string of each metadata field. *)
Lemma key_of_meta_heads meta field_name processor timestep T_ds T_f r_ds r_f :
  meta_strings meta !! "dataset" = Some (T_ds :: r_ds) →
  meta_strings meta !! "field" = Some (T_f :: r_f) →
  key_of_meta meta field_name processor timestep =
    (ds_name ← render_template T_ds (ds_kwargs timestep processor);
     f_name ← render_template T_f (field_kwargs field_name);
     Ok ("{" +:+ ds_name +:+ "}." +:+ f_name)).
Proof.
  intros Hds Hf. unfold key_of_meta, get_meta_strings.
  rewrite Hds, Hf. reflexivity.
Qed.

Lemma key_of_meta_malformed meta field_name processor timestep :
  meta_strings meta !! "dataset" = None ∨
  meta_strings meta !! "dataset" = Some [] ∨
  meta_strings meta !! "field" = None ∨
  meta_strings meta !! "field" = Some [] →
  ∃ e, key_of_meta meta field_name processor timestep = Raise e.
Proof.
  unfold key_of_meta, get_meta_strings.
  intros [Hm | [Hm | [Hm | Hm]]]; rewrite Hm; cbn.
  1,2: by eexists.
  all: destruct (meta_strings meta !! "dataset") as [[|T_ds r_ds]|]; cbn;
    try (by eexists);
    destruct (render_template T_ds _); cbn; by eexists.
Qed.

End Resolver.

(** ** Facts about the Jinja2 fragment *)
Section JinjaFacts.
Import Jinja.

Lemma render_template_parse src ns ctx :
  parse src = Some ns →
  @render_template env src ctx = Ok (render_nodes ctx ns).
Proof.
  intros Hp. unfold render_template. cbn. unfold jinja_from_string.
  by rewrite Hp.
Qed.

Lemma render_nodes_supplied_only ctx names ns :
  (∀ x, x ∉ names → ctx !! x = None) →
  render_nodes ctx (supplied_only names ns) = render_nodes ctx ns.
Proof.
  intros Hctx. induction ns as [|n ns IH]; [reflexivity|].
  cbn [supplied_only]. destruct n as [d|x]; cbn [is_supplied].
  - cbn [render_nodes]. by rewrite IH.
  - case_bool_decide as Hx; cbn [render_nodes]; rewrite IH; [done|].
    cbn [render_node]. by rewrite (Hctx x Hx).
Qed.

Lemma render_nodes_occurs ctx ns x v :
  TName x ∈ ns → ctx !! x = Some v →
  occurs_in (py_str v) (render_nodes ctx ns).
Proof.
  intros Hin Hx. induction ns as [|n ns IH]; [by apply elem_of_nil in Hin|].
  apply elem_of_cons in Hin as [<- | Hin]; cbn [render_nodes].
  - cbn [render_node]. rewrite Hx. apply occurs_in_here.
  - apply occurs_in_app_l, IH, Hin.
Qed.

Lemma ds_kwargs_other timestep processor x :
  x ∉ ["time_index"; "mpi_rank"] → ds_kwargs timestep processor !! x = None.
Proof.
  intros Hx. unfold ds_kwargs.
  rewrite lookup_insert_ne, lookup_singleton_ne; [done | |];
    intros <-; apply Hx; set_solver.
Qed.

Lemma field_kwargs_other field_name x :
  x ∉ ["name"; "patch"] → field_kwargs field_name !! x = None.
Proof.
  intros Hx. unfold field_kwargs.
  rewrite lookup_insert_ne, lookup_singleton_ne; [done | |];
    intros <-; apply Hx; set_solver.
Qed.

End JinjaFacts.

(** ** The filter engine on plain templates *)
Section JinjaFFacts.
Import JinjaF.

Lemma push_data_of_node c ns :
  push_data c (map of_node ns) = map of_node (Jinja.push_data c ns).
Proof. by destruct ns as [|[d|x] ns]. Qed.

Lemma emit_name_of_node x r :
  emit_name x (map of_node <$> r) = map of_node <$> Jinja.emit_name x r.
Proof.
  unfold emit_name, Jinja.emit_name.
  destruct (Jinja.is_reserved x); [reflexivity|]. by destruct r.
Qed.

(** Where the plain lexer accepts, this one does, with the same nodes. *)
Lemma lex_of_state s :
  (∀ st, lex (of_state st) s = map of_node <$> Jinja.lex st s
         ∨ Jinja.lex st s = None)
  ∧ ∀ c st, lex (of_state st) (String c s) = map of_node <$> Jinja.lex st (String c s)
            ∨ Jinja.lex st (String c s) = None.
Proof.
  induction s as [|c' s [IHs IHcs]].
  - split.
    + intros [| | |]; cbn; auto.
    + intros c [| |acc|x]; cbn [of_state lex Jinja.lex];
        repeat (case_match; cbn; auto).
  - split; [exact (IHcs c')|].
    intros c st.
    pose proof (λ st', IHcs c' st') as IH1.
    remember (String c' s) as s' eqn:Hs'.
    destruct st as [| |acc|x]; cbn [of_state lex Jinja.lex].
    + destruct (Ascii.eqb c "{"%char).
      * rewrite Hs'. cbv beta match. rewrite <- Hs'.
        destruct (Ascii.eqb c' "{"%char); [apply (IHs Jinja.LOpen)|].
        destruct (Ascii.eqb c' "%"%char || Ascii.eqb c' "#"%char); [by right|].
        destruct (IH1 Jinja.LData) as [Hl | Hl]; cbn [of_state] in Hl;
          rewrite Hl; [left | by right].
        destruct (Jinja.lex Jinja.LData s'); cbn; [|done].
        by rewrite push_data_of_node.
      * destruct (Jinja.is_newline c); [by right|].
        destruct (IH1 Jinja.LData) as [Hl | Hl]; cbn [of_state] in Hl;
          rewrite Hl; [left | by right].
        destruct (Jinja.lex Jinja.LData s'); cbn; [|done].
        by rewrite push_data_of_node.
    + destruct (Ascii.eqb c " "%char); [apply (IH1 Jinja.LOpen)|].
      destruct (Jinja.is_ident_start c); [apply (IH1 (Jinja.LName _))|by right].
    + destruct (Jinja.is_ident_char c); [apply (IH1 (Jinja.LName _))|].
      destruct (Ascii.eqb c " "%char); [apply (IH1 (Jinja.LClose _))|].
      destruct (Ascii.eqb c "}"%char); [|by right].
      rewrite Hs'. cbv beta match.
      destruct (Ascii.eqb c' "}"%char); [|by right].
      destruct (IHs Jinja.LData) as [Hl | Hl]; cbn [of_state] in Hl; rewrite Hl.
      * left. apply emit_name_of_node.
      * right. unfold Jinja.emit_name. by case_match.
    + destruct (Ascii.eqb c " "%char); [apply (IH1 (Jinja.LClose _))|].
      destruct (Ascii.eqb c "}"%char); [|by right].
      rewrite Hs'. cbv beta match.
      destruct (Ascii.eqb c' "}"%char); [|by right].
      destruct (IHs Jinja.LData) as [Hl | Hl]; cbn [of_state] in Hl; rewrite Hl.
      * left. apply emit_name_of_node.
      * right. unfold Jinja.emit_name. by case_match.
Qed.

Lemma parse_of_node src ns :
  Jinja.parse src = Some ns → parse src = Some (map of_node ns).
Proof.
  unfold parse, Jinja.parse. intros Hp.
  destruct (proj1 (lex_of_state src) Jinja.LData) as [Hl | Hl].
  - cbn [of_state] in Hl. by rewrite Hl, Hp.
  - by rewrite Hl in Hp.
Qed.

(** A plain template uses no generator: it prints what the plain engine
    prints, whatever the state of the generator. *)
Lemma render_nodes_of_node draw k ctx ns :
  render_nodes draw k ctx (map of_node ns) = Ok (Jinja.render_nodes ctx ns).
Proof.
  induction ns as [|[d|x] ns IH]; [reflexivity| |];
    cbn [map of_node render_nodes]; rewrite IH; reflexivity.
Qed.

Lemma render_template_plain draw src ns ctx :
  Jinja.parse src = Some ns →
  @render_template (env draw) src ctx = Ok (Jinja.render_nodes ctx ns).
Proof.
  intros Hp. unfold render_template. cbn. unfold jinja_from_string.
  rewrite (parse_of_node _ _ Hp). cbn. apply render_nodes_of_node.
Qed.

End JinjaFFacts.

(** ** The resolver's contract

    In the statements below [knows (client w) ensemble_member = true]
    says that the scoping step of the call succeeds, so that the call
    gets as far as the poll: either no member is given, or the member is
    one the client read from SSKEYIN when it was created. *)

(** C1. When the metadata dataset is found and holds the template strings
    [T_ds] under "dataset" and [T_f] under "field", the resolver returns
    "{" + render(T_ds, time_index=timestep, mpi_rank=processor) + "}." +
    render(T_f, name=field_name, patch="internal").  With Jinja2 and the
    templates "ts{{time_index}}_p{{mpi_rank}}" and "{{name}}_{{patch}}",
    timestep 1, processor 0 and field "U", that is "{ts1_p0}.U_internal". *)
Theorem get_field_name_key :
  (∀ (E : Environment) fn_name field_name processor timestep ensemble_member
     w meta T_ds T_f r_ds r_f s_ds s_f,
     let a := scoped ensemble_member (addressing (client w)) in
     let ds := fn_name +:+ "_metadata" in
     knows (client w) ensemble_member = true →
     store_poll_dataset (store (client w)) a ds 10 1000 = true →
     store_get_dataset (store (client w)) a ds = Ok meta →
     meta_strings meta !! "dataset" = Some (T_ds :: r_ds) →
     meta_strings meta !! "field" = Some (T_f :: r_f) →
     render_template T_ds (ds_kwargs timestep processor) = Ok s_ds →
     render_template T_f (field_kwargs field_name) = Ok s_f →
     (get_field_name fn_name field_name processor timestep ensemble_member w).2
       = Ok ("{" +:+ s_ds +:+ "}." +:+ s_f))
  ∧
  (∀ fn_name ensemble_member w meta r_ds r_f,
     let a := scoped ensemble_member (addressing (client w)) in
     let ds := fn_name +:+ "_metadata" in
     knows (client w) ensemble_member = true →
     store_poll_dataset (store (client w)) a ds 10 1000 = true →
     store_get_dataset (store (client w)) a ds = Ok meta →
     meta_strings meta !! "dataset" = Some ("ts{{time_index}}_p{{mpi_rank}}" :: r_ds) →
     meta_strings meta !! "field" = Some ("{{name}}_{{patch}}" :: r_f) →
     (@get_field_name Jinja.env fn_name "U" 0 (Some 1) ensemble_member w).2
       = Ok "{ts1_p0}.U_internal").
Proof.
  split.
  - intros E fn f p t em w meta T_ds T_f r_ds r_f s_ds s_f a ds
      Hknows Hpoll Hget Hds Hf Hrds Hrf.
    rewrite (get_field_name_found _ _ _ _ _ _ meta) by done. cbn [snd].
    rewrite (key_of_meta_heads _ _ _ _ _ _ _ _ Hds Hf), Hrds, Hrf.
    reflexivity.
  - intros fn em w meta r_ds r_f a ds Hknows Hpoll Hget Hds Hf.
    rewrite (get_field_name_found _ _ _ _ _ _ meta) by done. cbn [snd].
    rewrite (key_of_meta_heads _ _ _ _ _ _ _ _ Hds Hf).
    reflexivity.
Qed.

Lemma get_field_name_key_witness :
  (@get_field_name Jinja.env "pUPhiTest" "p" 3 (Some 20)
     (Some {| name := "mesh-study_0" |}) Demo.w0).2
    = Ok "{ts20_p3}.p_internal"
  ∧ (@get_field_name Jinja.env "pUPhiTest" "U" 0 (Some 1) None Demo.w0).2
    = Ok "{ts1_p0}.U_internal".
Proof.
  split.
  - apply (proj1 get_field_name_key Jinja.env "pUPhiTest" "p" 3 (Some 20)
             (Some {| name := "mesh-study_0" |}) Demo.w0 Demo.std_naming
             "ts{{time_index}}_p{{mpi_rank}}" "{{name}}_{{patch}}" [] []
             "ts20_p3" "p_internal");
      reflexivity.
  - apply (proj2 get_field_name_key "pUPhiTest" None Demo.w0 Demo.std_naming [] []);
      reflexivity.
Defined.

(** C2 as stated fails in three ways.  A member the client
    does not know ends the call at [set_data_source], before any poll.
    The bound is not ten checks: a dataset that appears at the eleventh
    check is found, and the call returns the key.  And with nothing in
    the store and SSKEYIN not set the call ends in [KeyError], not in a
    [ValueError]. *)
Lemma poll_counterexamples :
  (let out := @get_field_name Jinja.env "pUPhiTest" "U" 0 (Some 1)
                (Some {| name := "mesh-study_9" |}) Demo.w0 in
   calls (client out.1) = [SetDataSource "mesh-study_9"]
   ∧ ∃ msg, out.2 = Raise (StoreError msg))
  ∧ (let s := Demo.late_store in
     let a := addressing (client Demo.w_late) in
     (∀ k, (k < 10)%nat → store_dataset_exists s a "pUPhiTest_metadata" k = false)
     ∧ (@get_field_name Jinja.env "pUPhiTest" "U" 0 (Some 1) None Demo.w_late).2
       = Ok "{ts1_p0}.U_internal")
  ∧ (let w := Demo.world_of Demo.empty_store ∅ in
     let out := @get_field_name Jinja.env "pUPhiTest" "U" 0 (Some 1) None w in
     store_poll_dataset (store (client w)) (addressing (client w))
       "pUPhiTest_metadata" 10 1000 = false
     ∧ out.2 = Raise (KeyError "SSKEYIN")
     ∧ ¬ ∃ msg, out.2 = Raise (ValueError msg)).
Proof.
  split; [|split].
  - cbv zeta. split; [reflexivity|]. eexists. reflexivity.
  - cbv zeta. split; [|reflexivity].
    intros k Hk. unfold Demo.late_store. cbn [store_dataset_exists].
    apply andb_false_iff. right. apply Nat.leb_gt. lia.
  - cbv zeta. split; [reflexivity|]. split; [reflexivity|].
    intros [msg Hmsg]. vm_compute in Hmsg. discriminate Hmsg.
Qed.

(** C2, amended. In every call whose scoping step succeeds the store is
    polled for the dataset named fn_name + "_metadata" by
    [poll_dataset(name, 10, 1000)]: up to 1000 existence checks, 10 ms
    apart.  If the dataset is absent at each of the 1000 checks and
    SSKEYIN is set, the call raises a [ValueError] whose message contains
    that dataset name and the value of SSKEYIN, and returns no key. *)
Theorem poll_then_not_found (E : Environment)
    fn_name field_name processor timestep ensemble_member w :
  let a := scoped ensemble_member (addressing (client w)) in
  let ds := fn_name +:+ "_metadata" in
  let out := get_field_name fn_name field_name processor timestep ensemble_member w in
  knows (client w) ensemble_member = true →
  (∃ before after,
     calls (client out.1) =
       (calls (client w) ++ before ++ PollDataset ds 10 1000 :: after)%list)
  ∧ (store_poll_dataset (store (client w)) a ds 10 1000 = true ↔
     ∃ k, (k < 1000)%nat ∧ store_dataset_exists (store (client w)) a ds k = true)
  ∧ ((∀ k, (k < 1000)%nat →
        store_dataset_exists (store (client w)) a ds k = false) →
     ∀ prefix, environ w !! "SSKEYIN" = Some prefix →
       out.2 = Raise (ValueError (not_found_message ds prefix))
       ∧ occurs_in ds (not_found_message ds prefix)
       ∧ occurs_in prefix (not_found_message ds prefix)).
Proof.
  intros a ds out Hknows. split; [|split].
  - destruct (get_field_name_effect fn_name field_name processor timestep
                ensemble_member w Hknows) as (later & Hout & _).
    subst out. rewrite Hout. cbn [fst log_calls client calls].
    by exists (scope_calls ensemble_member), later.
  - unfold store_poll_dataset. rewrite poll_checks_true.
    change (Z.to_nat 1000) with 1000%nat.
    split; intros (k & Hk & Hp); exists k; (split; [lia | done]).
  - intros Habsent prefix Henv. subst out.
    rewrite get_field_name_missing; [|done|].
    + cbn [snd]. rewrite Henv. split; [reflexivity|].
      apply not_found_message_names.
    + unfold store_poll_dataset. apply poll_checks_false.
      intros k Hk. apply Habsent. change (Z.to_nat 1000) with 1000%nat in Hk. lia.
Qed.

Lemma poll_then_not_found_witness :
  let w := Demo.world_of Demo.empty_store {[ "SSKEYIN" := "mesh-study_0" ]} in
  let out := @get_field_name Jinja.env "pUPhiTest" "U" 0 (Some 1)
               (Some {| name := "mesh-study_0" |}) w in
  (∃ before after,
     calls (client out.1) =
       (before ++ PollDataset "pUPhiTest_metadata" 10 1000 :: after)%list)
  ∧ out.2 = Raise (ValueError
              "Could not find dataset pUPhiTest_metadata under prefix 'mesh-study_0'").
Proof.
  intros w out.
  destruct (poll_then_not_found Jinja.env "pUPhiTest" "U" 0 (Some 1)
              (Some {| name := "mesh-study_0" |}) w eq_refl)
    as (Hpoll & _ & Hnf).
  split; [exact Hpoll|].
  by destruct (Hnf (λ _ _, eq_refl) "mesh-study_0" eq_refl) as (Hres & _).
Defined.

(** C9. On the not-found path the resolver reads SSKEYIN to build its
    message: when the poll fails and SSKEYIN is not set the call ends in
    [KeyError] for SSKEYIN; the descriptive [ValueError] is raised exactly
    when SSKEYIN is set. *)
Theorem not_found_reads_SSKEYIN (E : Environment)
    fn_name field_name processor timestep ensemble_member w :
  let a := scoped ensemble_member (addressing (client w)) in
  let ds := fn_name +:+ "_metadata" in
  let out := get_field_name fn_name field_name processor timestep ensemble_member w in
  knows (client w) ensemble_member = true →
  store_poll_dataset (store (client w)) a ds 10 1000 = false →
  (environ w !! "SSKEYIN" = None → out.2 = Raise (KeyError "SSKEYIN"))
  ∧ (∀ prefix, environ w !! "SSKEYIN" = Some prefix →
       out.2 = Raise (ValueError (not_found_message ds prefix)))
  ∧ (∀ msg, out.2 = Raise (ValueError msg) → is_Some (environ w !! "SSKEYIN")).
Proof.
  intros a ds out Hknows Hpoll. subst out.
  rewrite get_field_name_missing by done. cbn [snd].
  destruct (environ w !! "SSKEYIN") as [prefix|] eqn:Henv.
  - split; [discriminate|]. split; [|by eauto].
    by intros ? [= <-].
  - split; [reflexivity|]. split; [discriminate|].
    intros msg [=].
Qed.

Lemma not_found_reads_SSKEYIN_witness :
  (@get_field_name Jinja.env "pUPhiTest" "U" 0 (Some 1)
     (Some {| name := "mesh-study_0" |})
     (Demo.world_of Demo.empty_store ∅)).2
  = Raise (KeyError "SSKEYIN").
Proof.
  apply (proj1 (not_found_reads_SSKEYIN Jinja.env "pUPhiTest" "U" 0 (Some 1)
                  (Some {| name := "mesh-study_0" |})
                  (Demo.world_of Demo.empty_store ∅) eq_refl eq_refl)).
  reflexivity.
Defined.

(** C4. In a call with an ensemble member, before any store lookup the
    client was given the member's name as data source and the four prefix
    toggles were enabled, all four and in that order: whatever lookup the
    call makes comes after these five calls and is answered under that
    addressing state.  The toggles are never enabled in part: the call
    makes the five calls and then its lookups, or, when the client does
    not know the member, ends at [set_data_source] with no toggle, no
    lookup and the addressing state as it was. *)
Theorem scoping_precedes_lookups (E : Environment)
    fn_name field_name processor timestep e w :
  let scope := {| data_source := name e;
                  dataset_prefix := true;
                  list_prefix := true;
                  model_prefix := true;
                  tensor_prefix := true |} in
  let five := [ SetDataSource (name e);
                UseDatasetEnsemblePrefix true;
                UseListEnsemblePrefix true;
                UseModelEnsemblePrefix true;
                UseTensorEnsemblePrefix true ] in
  let out := get_field_name fn_name field_name processor timestep (Some e) w in
  ∃ new,
    calls (client out.1) = (calls (client w) ++ new)%list
    ∧ (∀ pre ev post,
         new = (pre ++ ev :: post)%list → is_lookup ev = true →
         (∃ lookups, pre = (five ++ lookups)%list)
         ∧ addressing (client out.1) = scope
         ∧ out.2 = (get_field_name fn_name field_name processor timestep None
                      (with_scope scope w)).2)
    ∧ if knows (client w) (Some e) then
        ∃ lookups,
          new = (five ++ lookups)%list
          ∧ head lookups = Some (PollDataset (fn_name +:+ "_metadata") 10 1000)
          ∧ Forall (λ ev, is_lookup ev = true) lookups
      else
        new = [SetDataSource (name e)]
        ∧ addressing (client out.1) = addressing (client w)
        ∧ ∃ msg, out.2 = Raise (StoreError msg).
Proof.
  intros scope five out. destruct (knows (client w) (Some e)) eqn:Hknows.
  - destruct (get_field_name_effect fn_name field_name processor timestep
                (Some e) w Hknows) as (later & Hout & Hlater).
    exists (five ++ PollDataset (fn_name +:+ "_metadata") 10 1000 :: later)%list.
    subst out. rewrite Hout.
    cbn [fst log_calls client calls addressing scope_calls scoped].
    split; [reflexivity|]. split.
    + intros pre ev post Hsplit Hev. split; [|split; [reflexivity|]].
      * subst five.
        destruct pre as [|p1 [|p2 [|p3 [|p4 [|p5 pre]]]]];
          simplify_eq/=; by eexists.
      * rewrite (get_field_name_run _ _ _ _ (Some e)) by done.
        rewrite (get_field_name_run _ _ _ _ None) by done.
        cbn [scoped with_scope client addressing store environ].
        fold scope. by destruct (store_poll_dataset _ _ _ _ _).
    + eexists. split; [reflexivity|]. split; [reflexivity|].
      destruct Hlater as [-> | ->]; repeat constructor.
  - exists [SetDataSource (name e)].
    subst out. rewrite get_field_name_refused by done.
    cbn [fst snd log_calls client calls addressing].
    split; [reflexivity|]. split.
    + intros [|p1 pre] ev post Hsplit Hev.
      * injection Hsplit as <- _. discriminate Hev.
      * injection Hsplit as _ Hnil. by destruct pre.
    + split; [reflexivity|]. split; [reflexivity|]. by eexists.
Qed.

Lemma scoping_precedes_lookups_witness :
  let e := {| name := "mesh-study_1" |} in
  let out := @get_field_name Jinja.env "pUPhiTest" "U" 0 (Some 1) (Some e) Demo.w0 in
  (∃ lookups,
     [ SetDataSource "mesh-study_1"; UseDatasetEnsemblePrefix true;
       UseListEnsemblePrefix true; UseModelEnsemblePrefix true;
       UseTensorEnsemblePrefix true ] =
     ([ SetDataSource "mesh-study_1"; UseDatasetEnsemblePrefix true;
        UseListEnsemblePrefix true; UseModelEnsemblePrefix true;
        UseTensorEnsemblePrefix true ] ++ lookups)%list)
  ∧ tensor_prefix (addressing (client out.1)) = true.
Proof.
  intros e out.
  destruct (scoping_precedes_lookups Jinja.env "pUPhiTest" "U" 0 (Some 1) e Demo.w0)
    as (new & Hcalls & Hbefore & _).
  destruct (Hbefore
              [ SetDataSource "mesh-study_1"; UseDatasetEnsemblePrefix true;
                UseListEnsemblePrefix true; UseModelEnsemblePrefix true;
                UseTensorEnsemblePrefix true ]
              (PollDataset "pUPhiTest_metadata" 10 1000)
              [GetDataset "pUPhiTest_metadata"])
    as (Hpre & Haddr & _).
  - apply (app_inv_head (calls (client Demo.w0))). rewrite <- Hcalls. reflexivity.
  - reflexivity.
  - split; [exact Hpre|]. fold out in Haddr. by rewrite Haddr.
Defined.

(** C5. Without an ensemble member the call leaves the client's
    addressing state as it found it and makes no call that would change
    it, so the state an earlier call left is still there after later calls
    without a member: after a call with a member the client knows, a call
    without member runs under that member's scope.  Only a call with a
    member changes the state, to the scope of that member when the client
    knows it. *)
Theorem unscoped_call_keeps_addressing (E : Environment) :
  (∀ fn_name field_name processor timestep w,
     let out := get_field_name fn_name field_name processor timestep None w in
     addressing (client out.1) = addressing (client w)
     ∧ ∃ lookups,
         calls (client out.1) = (calls (client w) ++ lookups)%list
         ∧ Forall (λ ev, is_lookup ev = true) lookups)
  ∧ (∀ fn1 field1 proc1 step1 fn2 field2 proc2 step2 em w,
       let w1 := (get_field_name fn1 field1 proc1 step1 em w).1 in
       let out := get_field_name fn2 field2 proc2 step2 None w1 in
       addressing (client out.1) = addressing (client w1)
       ∧ ∀ e, em = Some e → knows (client w) (Some e) = true →
           addressing (client out.1) = scoped (Some e) (addressing (client w))
           ∧ out.2 = (get_field_name fn2 field2 proc2 step2 (Some e) w1).2)
  ∧ (∀ fn_name field_name processor timestep e' w,
       let out := get_field_name fn_name field_name processor timestep (Some e') w in
       addressing (client out.1) =
         if knows (client w) (Some e')
         then scoped (Some e') (addressing (client w))
         else addressing (client w)).
Proof.
  assert (∀ fn f p t w,
            addressing (client (get_field_name fn f p t None w).1)
              = addressing (client w)) as Hkeep.
  { intros fn f p t w.
    by destruct (get_field_name_effect fn f p t None w eq_refl) as (later & -> & _). }
  split; [|split].
  - intros fn f p t w out. split; [apply Hkeep|].
    destruct (get_field_name_effect fn f p t None w eq_refl) as (later & Hout & Hlater).
    subst out. rewrite Hout. cbn [fst log_calls client calls scope_calls].
    eexists. split; [reflexivity|].
    destruct Hlater as [-> | ->]; repeat constructor.
  - intros fn1 f1 p1 t1 fn2 f2 p2 t2 em w w1 out. split; [apply Hkeep|].
    intros e -> Hknows. subst out. rewrite Hkeep.
    destruct (get_field_name_effect fn1 f1 p1 t1 (Some e) w Hknows) as (l1 & Hw1 & _).
    subst w1. rewrite Hw1. cbn [log_calls client addressing].
    split; [reflexivity|].
    rewrite (get_field_name_run _ _ _ _ None) by done.
    rewrite (get_field_name_run _ _ _ _ (Some e)) by exact Hknows.
    cbn [scoped log_calls client addressing store environ].
    by destruct (store_poll_dataset _ _ _ _ _).
  - intros fn f p t e' w out. subst out.
    destruct (get_field_name_trace fn f p t (Some e') w) as (new & -> & _).
    reflexivity.
Qed.

Lemma unscoped_call_keeps_addressing_witness :
  let e := {| name := "mesh-study_1" |} in
  let w1 := (@get_field_name Jinja.env "pUPhiTest" "U" 0 (Some 1) (Some e) Demo.w0).1 in
  let out := @get_field_name Jinja.env "pUPhiTest" "p" 0 (Some 2) None w1 in
  data_source (addressing (client out.1)) = "mesh-study_1"
  ∧ tensor_prefix (addressing (client out.1)) = true
  ∧ out.2 = Ok "{ts2_p0}.p_internal".
Proof.
  intros e w1 out.
  destruct (proj1 (proj2 (unscoped_call_keeps_addressing Jinja.env))
              "pUPhiTest" "U" 0 (Some 1) "pUPhiTest" "p" 0 (Some 2) (Some e) Demo.w0)
    as [_ Hsticky].
  destruct (Hsticky e eq_refl eq_refl) as [Haddr Hres].
  fold w1 out in Haddr, Hres.
  split; [by rewrite Haddr|]. split; [by rewrite Haddr|].
  rewrite Hres. reflexivity.
Defined.

(** C6. When the metadata dataset exists but has no "dataset" field or no
    "field" field, or one of them is an empty sequence, the call raises
    and returns no key; when both are there, the key is built from the
    first string of each and from nothing else in the dataset. *)
Theorem malformed_metadata_fails (E : Environment) :
  (∀ fn_name field_name processor timestep ensemble_member w meta,
     let a := scoped ensemble_member (addressing (client w)) in
     let ds := fn_name +:+ "_metadata" in
     knows (client w) ensemble_member = true →
     store_poll_dataset (store (client w)) a ds 10 1000 = true →
     store_get_dataset (store (client w)) a ds = Ok meta →
     meta_strings meta !! "dataset" = None ∨
     meta_strings meta !! "dataset" = Some [] ∨
     meta_strings meta !! "field" = None ∨
     meta_strings meta !! "field" = Some [] →
     ∃ e, (get_field_name fn_name field_name processor timestep
             ensemble_member w).2 = Raise e)
  ∧
  (∀ fn_name field_name processor timestep ensemble_member w meta
     T_ds r_ds T_f r_f,
     let a := scoped ensemble_member (addressing (client w)) in
     let ds := fn_name +:+ "_metadata" in
     knows (client w) ensemble_member = true →
     store_poll_dataset (store (client w)) a ds 10 1000 = true →
     store_get_dataset (store (client w)) a ds = Ok meta →
     meta_strings meta !! "dataset" = Some (T_ds :: r_ds) →
     meta_strings meta !! "field" = Some (T_f :: r_f) →
     (get_field_name fn_name field_name processor timestep ensemble_member w).2 =
       (ds_name ← render_template T_ds (ds_kwargs timestep processor);
        f_name ← render_template T_f (field_kwargs field_name);
        Ok ("{" +:+ ds_name +:+ "}." +:+ f_name))).
Proof.
  split.
  - intros fn f p t em w meta a ds Hknows Hpoll Hget Hbad.
    rewrite (get_field_name_found _ _ _ _ _ _ meta) by done. cbn [snd].
    by apply key_of_meta_malformed.
  - intros fn f p t em w meta T_ds r_ds T_f r_f a ds Hknows Hpoll Hget Hds Hf.
    rewrite (get_field_name_found _ _ _ _ _ _ meta) by done. cbn [snd].
    by apply key_of_meta_heads with r_ds r_f.
Qed.

Lemma malformed_metadata_fails_witness :
  (∃ e, (@get_field_name Jinja.env "pUPhiTest" "U" 0 (Some 1) None
           Demo.w_no_field).2 = Raise e)
  ∧ (@get_field_name Jinja.env "pUPhiTest" "U" 0 (Some 1) None
       Demo.w_two_schemes).2 = Ok "{ts1}.U".
Proof.
  split.
  - apply (proj1 (malformed_metadata_fails Jinja.env) "pUPhiTest" "U" 0 (Some 1)
             None Demo.w_no_field Demo.no_field_naming);
      [reflexivity | reflexivity | reflexivity |].
    right; right; left. reflexivity.
  - exact (proj2 (malformed_metadata_fails Jinja.env) "pUPhiTest" "U" 0 (Some 1)
             None Demo.w_two_schemes Demo.two_schemes
             "ts{{time_index}}" ["step{{time_index}}"] "{{name}}" ["{{patch}}"]
             eq_refl eq_refl eq_refl eq_refl eq_refl).
Defined.

(** A template that uses Jinja2's [random] filter renders differently on
    two calls with the same inputs and the same stored templates, when
    the random generator is in another state. *)
Lemma random_filter_differs :
  let first := @get_field_name (JinjaF.env (λ _ _, 0%nat)) "pUPhiTest" "U" 0 (Some 1)
                 None Demo.w_random in
  let second := @get_field_name (JinjaF.env (λ _ _, 1%nat)) "pUPhiTest" "U" 0 (Some 1)
                  None Demo.w_random in
  first.2 = Ok "{ts1}.U_i" ∧ second.2 = Ok "{ts1}.U_n" ∧ first.2 ≠ second.2.
Proof. cbv zeta. split; [reflexivity|]. split; [reflexivity|]. discriminate. Qed.

(** C8, amended. With the metadata present, two calls with the same
    function object name, field name, processor and timestep, each
    finding metadata that holds the same two template strings, give the
    same result whenever the engine is in the same state for both,
    whatever else differs between the two worlds; for templates made of
    literal text and plain name references they give the same result
    also when the random generator of the engine is in different states. *)
Theorem get_field_name_deterministic :
  (∀ (E : Environment) fn_name field_name processor timestep
     em1 em2 w1 w2 meta1 meta2 T_ds T_f r_ds1 r_f1 r_ds2 r_f2,
     let ds := fn_name +:+ "_metadata" in
     let a1 := scoped em1 (addressing (client w1)) in
     let a2 := scoped em2 (addressing (client w2)) in
     knows (client w1) em1 = true →
     knows (client w2) em2 = true →
     store_poll_dataset (store (client w1)) a1 ds 10 1000 = true →
     store_poll_dataset (store (client w2)) a2 ds 10 1000 = true →
     store_get_dataset (store (client w1)) a1 ds = Ok meta1 →
     store_get_dataset (store (client w2)) a2 ds = Ok meta2 →
     meta_strings meta1 !! "dataset" = Some (T_ds :: r_ds1) →
     meta_strings meta1 !! "field" = Some (T_f :: r_f1) →
     meta_strings meta2 !! "dataset" = Some (T_ds :: r_ds2) →
     meta_strings meta2 !! "field" = Some (T_f :: r_f2) →
     (get_field_name fn_name field_name processor timestep em1 w1).2 =
     (get_field_name fn_name field_name processor timestep em2 w2).2)
  ∧
  (∀ draw1 draw2 fn_name field_name processor timestep
     em1 em2 w1 w2 meta1 meta2 T_ds T_f r_ds1 r_f1 r_ds2 r_f2 ns_ds ns_f,
     let ds := fn_name +:+ "_metadata" in
     let a1 := scoped em1 (addressing (client w1)) in
     let a2 := scoped em2 (addressing (client w2)) in
     knows (client w1) em1 = true →
     knows (client w2) em2 = true →
     store_poll_dataset (store (client w1)) a1 ds 10 1000 = true →
     store_poll_dataset (store (client w2)) a2 ds 10 1000 = true →
     store_get_dataset (store (client w1)) a1 ds = Ok meta1 →
     store_get_dataset (store (client w2)) a2 ds = Ok meta2 →
     meta_strings meta1 !! "dataset" = Some (T_ds :: r_ds1) →
     meta_strings meta1 !! "field" = Some (T_f :: r_f1) →
     meta_strings meta2 !! "dataset" = Some (T_ds :: r_ds2) →
     meta_strings meta2 !! "field" = Some (T_f :: r_f2) →
     Jinja.parse T_ds = Some ns_ds →
     Jinja.parse T_f = Some ns_f →
     ∃ key,
       (@get_field_name (JinjaF.env draw1) fn_name field_name processor timestep
          em1 w1).2 = Ok key
       ∧ (@get_field_name (JinjaF.env draw2) fn_name field_name processor timestep
            em2 w2).2 = Ok key).
Proof.
  split.
  - intros E fn f p t em1 em2 w1 w2 meta1 meta2 T_ds T_f r_ds1 r_f1 r_ds2 r_f2
      ds a1 a2 Hk1 Hk2 Hp1 Hp2 Hg1 Hg2 Hds1 Hf1 Hds2 Hf2.
    rewrite (get_field_name_found _ _ _ _ _ _ meta1) by done.
    rewrite (get_field_name_found _ _ _ _ _ _ meta2) by done.
    cbn [snd].
    rewrite (key_of_meta_heads _ _ _ _ _ _ _ _ Hds1 Hf1).
    rewrite (key_of_meta_heads _ _ _ _ _ _ _ _ Hds2 Hf2).
    reflexivity.
  - intros draw1 draw2 fn f p t em1 em2 w1 w2 meta1 meta2 T_ds T_f
      r_ds1 r_f1 r_ds2 r_f2 ns_ds ns_f ds a1 a2
      Hk1 Hk2 Hp1 Hp2 Hg1 Hg2 Hds1 Hf1 Hds2 Hf2 Hpds Hpf.
    eexists.
    rewrite (get_field_name_found _ _ _ _ _ _ meta1) by done.
    rewrite (get_field_name_found _ _ _ _ _ _ meta2) by done.
    cbn [snd].
    rewrite (key_of_meta_heads _ _ _ _ _ _ _ _ Hds1 Hf1).
    rewrite (key_of_meta_heads _ _ _ _ _ _ _ _ Hds2 Hf2).
    rewrite !(render_template_plain _ _ _ _ Hpds), !(render_template_plain _ _ _ _ Hpf).
    split; reflexivity.
Qed.

Lemma get_field_name_deterministic_witness :
  (@get_field_name Jinja.env "pUPhiTest" "U" 0 (Some 1) None Demo.w0).2 =
  (@get_field_name Jinja.env "pUPhiTest" "U" 0 (Some 1)
     (Some {| name := "mesh-study_1" |}) Demo.w_extra).2
  ∧ ∃ key,
      (@get_field_name (JinjaF.env (λ _ _, 0%nat)) "pUPhiTest" "U" 0 (Some 1)
         None Demo.w0).2 = Ok key
      ∧ (@get_field_name (JinjaF.env (λ _ _, 1%nat)) "pUPhiTest" "U" 0 (Some 1)
           (Some {| name := "mesh-study_1" |}) Demo.w_extra).2 = Ok key.
Proof.
  split.
  - exact (proj1 get_field_name_deterministic Jinja.env "pUPhiTest" "U" 0 (Some 1)
             None (Some {| name := "mesh-study_1" |}) Demo.w0 Demo.w_extra
             Demo.std_naming Demo.std_naming_extra
             "ts{{time_index}}_p{{mpi_rank}}" "{{name}}_{{patch}}" [] [] ["unused"] []
             eq_refl eq_refl eq_refl eq_refl eq_refl eq_refl
             eq_refl eq_refl eq_refl eq_refl).
  - exact (proj2 get_field_name_deterministic (λ _ _, 0%nat) (λ _ _, 1%nat)
             "pUPhiTest" "U" 0 (Some 1)
             None (Some {| name := "mesh-study_1" |}) Demo.w0 Demo.w_extra
             Demo.std_naming Demo.std_naming_extra
             "ts{{time_index}}_p{{mpi_rank}}" "{{name}}_{{patch}}" [] [] ["unused"] []
             [Jinja.TData "ts"; Jinja.TName "time_index"; Jinja.TData "_p";
              Jinja.TName "mpi_rank"]
             [Jinja.TName "name"; Jinja.TData "_"; Jinja.TName "patch"]
             eq_refl eq_refl eq_refl eq_refl eq_refl eq_refl
             eq_refl eq_refl eq_refl eq_refl eq_refl eq_refl).
Defined.

(** A reference to a name the resolver does not supply does not stop the
    call: the segment is rendered with nothing in its place. *)
Lemma undefined_parameter_is_silent :
  Jinja.parse "ts{{step}}_p{{mpi_rank}}" =
    Some [Jinja.TData "ts"; Jinja.TName "step"; Jinja.TData "_p"; Jinja.TName "mpi_rank"]
  ∧ ds_kwargs (Some 1) 0 !! "step" = None
  ∧ (@get_field_name Jinja.env "pUPhiTest" "U" 0 (Some 1) None Demo.w_stray).2
    = Ok "{ts_p0}.U_internal".
Proof. repeat split; reflexivity. Qed.

(** C3, amended. For stored templates that [Jinja.parse] accepts (literal
    text without line breaks and [{{ name }}] references to identifiers
    other than those in [Jinja.reserved]), a reference to a name that is
    not supplied (other than time_index and mpi_rank in the dataset
    template, other than name and patch in the field template) raises
    nothing: the environment is Jinja2's default one, the reference is
    rendered as the empty string, and the call returns the key of the
    templates with those references erased. *)
Theorem undefined_renders_empty
    fn_name field_name processor timestep ensemble_member w meta
    T_ds r_ds T_f r_f ns_ds ns_f :
  let a := scoped ensemble_member (addressing (client w)) in
  let ds := fn_name +:+ "_metadata" in
  knows (client w) ensemble_member = true →
  store_poll_dataset (store (client w)) a ds 10 1000 = true →
  store_get_dataset (store (client w)) a ds = Ok meta →
  meta_strings meta !! "dataset" = Some (T_ds :: r_ds) →
  meta_strings meta !! "field" = Some (T_f :: r_f) →
  Jinja.parse T_ds = Some ns_ds →
  Jinja.parse T_f = Some ns_f →
  (@get_field_name Jinja.env fn_name field_name processor timestep
     ensemble_member w).2 =
    Ok ("{" +:+
        Jinja.render_nodes (ds_kwargs timestep processor)
          (supplied_only ["time_index"; "mpi_rank"] ns_ds) +:+
        "}." +:+
        Jinja.render_nodes (field_kwargs field_name)
          (supplied_only ["name"; "patch"] ns_f)).
Proof.
  intros a ds Hknows Hpoll Hget Hds Hf Hpds Hpf.
  rewrite (get_field_name_found _ _ _ _ _ _ meta) by done. cbn [snd].
  rewrite (key_of_meta_heads _ _ _ _ _ _ _ _ Hds Hf).
  rewrite (render_template_parse _ _ _ Hpds), (render_template_parse _ _ _ Hpf).
  rewrite (render_nodes_supplied_only _ _ ns_ds) by apply ds_kwargs_other.
  rewrite (render_nodes_supplied_only _ _ ns_f) by apply field_kwargs_other.
  reflexivity.
Qed.

Lemma undefined_renders_empty_witness :
  (@get_field_name Jinja.env "pUPhiTest" "U" 0 (Some 1) None Demo.w_stray).2
    = Ok "{ts_p0}.U_internal".
Proof.
  exact (undefined_renders_empty "pUPhiTest" "U" 0 (Some 1) None Demo.w_stray
           Demo.stray_naming "ts{{step}}_p{{mpi_rank}}" [] "{{name}}_{{patch}}" []
           [Jinja.TData "ts"; Jinja.TName "step"; Jinja.TData "_p"; Jinja.TName "mpi_rank"]
           [Jinja.TName "name"; Jinja.TData "_"; Jinja.TName "patch"]
           eq_refl eq_refl eq_refl eq_refl eq_refl eq_refl eq_refl).
Defined.






(** ** The query over the ensemble *)

Section Driver.
Context `{Environment}.

Lemma query_member_run e w :
  query_member e w =
    match get_field_name fn_name "U" 0 (Some 1) (Some e) w with
    | (w1, Ok U_name) =>
        (reported U_name e
           (store_tensor_exists (store (client w1)) (addressing (client w1)) U_name)
           w1, Ok tt)
    | (w1, Raise x) => (w1, Raise x)
    end.
Proof.
  unfold query_member. run_M.
  destruct (get_field_name fn_name "U" 0 (Some 1) (Some e) w) as [w1 [U_name|x]];
    reflexivity.
Qed.

(** The resolver prints nothing, asks for no tensor, and leaves the
    store, the prefixes and [os.environ] alone. *)
Lemma get_field_name_quiet fn field_name processor timestep ensemble_member w :
  let w1 := (get_field_name fn field_name processor timestep ensemble_member w).1 in
  stdout w1 = stdout w
  ∧ store (client w1) = store (client w)
  ∧ key_prefixes (client w1) = key_prefixes (client w)
  ∧ environ w1 = environ w
  ∧ tensor_checks (calls (client w1)) = tensor_checks (calls (client w))
  ∧ sources (calls (client w1)) =
      (sources (calls (client w)) ++
       match ensemble_member with Some e => [name e] | None => [] end)%list.
Proof.
  intros w1.
  destruct (get_field_name_trace fn field_name processor timestep
              ensemble_member w) as (new & Hw1 & Hchecks & Hsrc).
  subst w1. rewrite Hw1.
  cbn [log_calls stdout client store key_prefixes environ calls].
  repeat split.
  - unfold tensor_checks in *. by rewrite filter_app, Hchecks, app_nil_r.
  - unfold sources in *. by rewrite omap_app, Hsrc.
Qed.

(** With a member, the result only depends on the store, on the prefixes
    the client knows and on [os.environ]. *)
Lemma member_result_ext fn field_name processor timestep e w1 w :
  store (client w1) = store (client w) →
  key_prefixes (client w1) = key_prefixes (client w) →
  environ w1 = environ w →
  (get_field_name fn field_name processor timestep (Some e) w1).2 =
  (get_field_name fn field_name processor timestep (Some e) w).2.
Proof.
  intros Hstore Hkeys Henv.
  assert (knows (client w1) (Some e) = knows (client w) (Some e)) as Hsame
    by (cbn [knows]; by rewrite Hkeys).
  destruct (knows (client w) (Some e)) eqn:Hknows.
  - rewrite !get_field_name_run by done. cbn [scoped].
    rewrite Hstore, Henv. by destruct (store_poll_dataset _ _ _ _ _).
  - by rewrite !get_field_name_refused by done.
Qed.

(** One completed iteration: what it leaves behind. *)
Lemma query_member_ok e w w1 :
  query_member e w = (w1, Ok tt) →
  ∃ U_name,
    (get_field_name fn_name "U" 0 (Some 1) (Some e) w).2 = Ok U_name
    ∧ stdout w1 =
        (stdout w ++
         [printed_line U_name e
            (store_tensor_exists (store (client w))
               (scoped (Some e) (addressing (client w))) U_name)])%list
    ∧ tensor_checks (calls (client w1)) =
        (tensor_checks (calls (client w)) ++ [TensorExists U_name])%list
    ∧ sources (calls (client w1)) = (sources (calls (client w)) ++ [name e])%list
    ∧ addressing (client w1) = scoped (Some e) (addressing (client w))
    ∧ store (client w1) = store (client w)
    ∧ key_prefixes (client w1) = key_prefixes (client w)
    ∧ environ w1 = environ w.
Proof.
  rewrite query_member_run.
  destruct (get_field_name_quiet fn_name "U" 0 (Some 1) (Some e) w)
    as (Hout & Hstore & Hkeys & Henv & Hchecks & Hsrc).
  destruct (get_field_name_trace fn_name "U" 0 (Some 1) (Some e) w)
    as (new & Hgw & _).
  destruct (knows (client w) (Some e)) eqn:Hknows.
  2: { rewrite get_field_name_refused by done. discriminate. }
  destruct (get_field_name fn_name "U" 0 (Some 1) (Some e) w)
    as [gw [U_name|x]]; [|discriminate].
  cbn [fst snd] in *. intros [= <-]. exists U_name.
  cbn [reported client calls addressing store key_prefixes environ stdout].
  split; [reflexivity|]. split.
  { rewrite Hout, Hstore. rewrite Hgw at 1. cbn [log_calls client addressing].
    unfold printed_line, report_line, py_str_bool. reflexivity. }
  split.
  { unfold tensor_checks in *. by rewrite filter_app, Hchecks. }
  split.
  { unfold sources in *. rewrite omap_app, Hsrc. cbn. by rewrite app_nil_r. }
  split; [by rewrite Hgw|]. done.
Qed.

Lemma query_ensemble_ok ensemble : ∀ w w',
  query_ensemble ensemble w = (w', Ok tt) →
  ∃ keys,
    Forall2 (λ e U_name,
               (get_field_name fn_name "U" 0 (Some 1) (Some e) w).2 = Ok U_name)
            ensemble keys
    ∧ stdout w' =
        (stdout w ++
         zip_with (λ e U_name,
                     printed_line U_name e
                       (store_tensor_exists (store (client w))
                          (scoped (Some e) (addressing (client w))) U_name))
                  ensemble keys)%list
    ∧ tensor_checks (calls (client w')) =
        (tensor_checks (calls (client w)) ++ map TensorExists keys)%list
    ∧ sources (calls (client w')) =
        (sources (calls (client w)) ++ map name ensemble)%list
    ∧ (∀ e, last ensemble = Some e →
         addressing (client w') = scoped (Some e) (addressing (client w)))
    ∧ store (client w') = store (client w)
    ∧ key_prefixes (client w') = key_prefixes (client w)
    ∧ environ w' = environ w.
Proof.
  induction ensemble as [|e rest IH]; intros w w' Hrun.
  - cbn in Hrun. injection Hrun as <-. exists [].
    rewrite !app_nil_r. repeat split; [constructor | discriminate].
  - cbn [query_ensemble] in Hrun. unfold mbind, M_bind in Hrun.
    destruct (query_member e w) as [w1 [[]|x]] eqn:Hstep; [|discriminate Hrun].
    destruct (query_member_ok e w w1 Hstep)
      as (U_name & Hkey & Hline & Hchecks & Hsrc & Haddr & Hstore & Hkeys & Henv).
    destruct (IH w1 w' Hrun)
      as (keys & Hrest & Hlines & Hchecks' & Hsrc' & Hlast & Hstore' & Hkeys' & Henv').
    exists (U_name :: keys).
    split; [|split; [|split; [|split; [|split; [|split; [|split]]]]]].
    + constructor; [exact Hkey|].
      eapply Forall2_impl; [exact Hrest|].
      intros e' k Hk. cbn beta in *.
      by rewrite <- (member_result_ext _ _ _ _ e' w1 w Hstore Hkeys Henv).
    + rewrite Hlines, Hline, Hstore. cbn [zip_with]. by rewrite <- app_assoc.
    + rewrite Hchecks', Hchecks. cbn [map]. by rewrite <- app_assoc.
    + rewrite Hsrc', Hsrc. cbn [map]. by rewrite <- app_assoc.
    + intros e'. destruct rest as [|e2 rest'].
      * cbn. intros [= <-]. cbn in Hrun. by injection Hrun as <-.
      * intros Hl. rewrite (Hlast e') by exact Hl. reflexivity.
    + by rewrite Hstore'.
    + by rewrite Hkeys'.
    + by rewrite Henv'.
Qed.

Lemma query_ensemble_app done rest : ∀ w wk,
  query_ensemble done w = (wk, Ok tt) →
  query_ensemble (done ++ rest) w = query_ensemble rest wk.
Proof.
  induction done as [|e done IH]; intros w wk Hdone.
  - cbn in Hdone. by injection Hdone as <-.
  - cbn [query_ensemble app] in *. unfold mbind, M_bind in *.
    destruct (query_member e w) as [w1 [[]|x]]; [|discriminate Hdone].
    by apply IH.
Qed.

Lemma set_data_sources_run ensemble w :
  set_data_sources ensemble w =
    ({| client := client w;
        environ := <["SSKEYIN" := String.concat "," (map name ensemble)]> (environ w);
        stdout := stdout w ++ [String.concat "," (map name ensemble)] |}, Ok tt).
Proof.
  unfold set_data_sources. run_M. by rewrite lookup_insert_eq.
Qed.

(** In the script SSKEYIN is set before the first call of the resolver:
    the first member whose metadata is not found stops the loop with the
    [ValueError] that names the dataset and the value of SSKEYIN. *)
Lemma query_script_not_found done e rest w wk :
  let ensemble := (done ++ e :: rest)%list in
  knows (client w) (Some e) = true →
  query_ensemble done (set_data_sources ensemble w).1 = (wk, Ok tt) →
  store_poll_dataset (store (client wk))
    (scoped (Some e) (addressing (client wk))) "pUPhiTest_metadata" 10 1000 = false →
  (query_script ensemble w).2 =
    Raise (ValueError (not_found_message "pUPhiTest_metadata"
                         (String.concat "," (map name ensemble)))).
Proof.
  intros ensemble Hknows Hdone Hpoll. subst ensemble.
  rewrite set_data_sources_run in Hdone. cbn [fst] in Hdone.
  destruct (query_ensemble_ok done _ wk Hdone)
    as (_ & _ & _ & _ & _ & _ & _ & Hkeys & Henv).
  cbn [client environ] in Hkeys, Henv.
  unfold query_script, mbind at 1, M_bind.
  rewrite set_data_sources_run.
  rewrite (query_ensemble_app done (e :: rest) _ wk Hdone).
  cbn [query_ensemble]. unfold mbind, M_bind. rewrite query_member_run.
  rewrite get_field_name_missing; [|cbn [knows] in *; by rewrite Hkeys|exact Hpoll].
  rewrite Henv. by rewrite lookup_insert_eq.
Qed.

End Driver.

(** C7. For each member in turn the loop calls the resolver with the
    function object "pUPhiTest", the field "U", processor 0, timestep 1 and
    that member, then asks [tensor_exists] for the resolved key once and
    prints the answer for that member as [True] or [False]; a [False]
    answer is printed like a [True] one, the loop goes on, and nothing is
    asked again. *)
Theorem query_ensemble_reports (E : Environment) :
  (∀ e w,
     let out := get_field_name "pUPhiTest" "U" 0 (Some 1) (Some e) w in
     match out.2 with
     | Ok U_name =>
         ∃ w2,
           query_member e w = (w2, Ok tt)
           ∧ calls (client w2) = (calls (client out.1) ++ [TensorExists U_name])%list
           ∧ stdout w2 =
               (stdout w ++
                [ "--- " +:+ U_name +:+ " is found for member " +:+ name e +:+ "? " +:+
                  (if store_tensor_exists (store (client w))
                        (scoped (Some e) (addressing (client w))) U_name
                   then "True" else "False") ])%list
     | Raise x => query_member e w = (out.1, Raise x)
     end)
  ∧ (∀ e rest w,
       query_ensemble (e :: rest) w =
         match query_member e w with
         | (w1, Ok _) => query_ensemble rest w1
         | (w1, Raise x) => (w1, Raise x)
         end)
  ∧ (∀ ensemble w w',
       query_ensemble ensemble w = (w', Ok tt) →
       ∃ keys : list string,
         Forall2 (λ e U_name,
                    (get_field_name "pUPhiTest" "U" 0 (Some 1) (Some e) w).2
                      = Ok U_name)
                 ensemble keys
         ∧ stdout w' =
             (stdout w ++
              zip_with (λ e U_name,
                          "--- " +:+ U_name +:+ " is found for member " +:+
                          name e +:+ "? " +:+
                          (if store_tensor_exists (store (client w))
                                (scoped (Some e) (addressing (client w))) U_name
                           then "True" else "False"))
                       ensemble keys)%list
         ∧ tensor_checks (calls (client w')) =
             (tensor_checks (calls (client w)) ++ map TensorExists keys)%list).
Proof.
  split; [|split].
  - intros e w out. subst out.
    change (get_field_name "pUPhiTest" "U" 0 (Some 1) (Some e) w)
      with (get_field_name fn_name "U" 0 (Some 1) (Some e) w).
    pose proof (query_member_run e w) as Hrun.
    destruct (get_field_name fn_name "U" 0 (Some 1) (Some e) w)
      as [w1 [U_name|x]] eqn:Hg; cbn [fst snd]; [|exact Hrun].
    eexists. split; [exact Hrun|]. split; [reflexivity|].
    destruct (query_member_ok e w _ Hrun) as (k & Hk & Hline & _).
    rewrite Hg in Hk. cbn [snd] in Hk. injection Hk as <-. exact Hline.
  - intros e rest w. cbn [query_ensemble]. unfold mbind, M_bind.
    by destruct (query_member e w) as [w1 [[]|x]].
  - intros ensemble w w' Hrun.
    destruct (query_ensemble_ok ensemble w w' Hrun)
      as (keys & Hkeys & Hlines & Hchecks & _).
    exists keys. split; [exact Hkeys|]. split; [exact Hlines | exact Hchecks].
Qed.

Lemma query_ensemble_reports_witness :
  let ensemble := [ {| name := "mesh-study_0" |}; {| name := "mesh-study_1" |} ] in
  let w' := (@query_ensemble Jinja.env ensemble Demo.w0).1 in
  stdout w' =
    [ "--- {ts1_p0}.U_internal is found for member mesh-study_0? False";
      "--- {ts1_p0}.U_internal is found for member mesh-study_1? True" ]
  ∧ tensor_checks (calls (client w')) =
      [ TensorExists "{ts1_p0}.U_internal"; TensorExists "{ts1_p0}.U_internal" ].
Proof.
  intros ensemble w'.
  destruct (proj2 (proj2 (query_ensemble_reports Jinja.env)) ensemble Demo.w0 w')
    as (keys & Hkeys & Hlines & Hchecks).
  { vm_compute. reflexivity. }
  apply Forall2_cons_inv_l in Hkeys as (k0 & keys' & Hk0 & Hkeys & ->).
  apply Forall2_cons_inv_l in Hkeys as (k1 & keys'' & Hk1 & Hkeys & ->).
  apply Forall2_nil_inv_l in Hkeys as ->.
  vm_compute in Hk0, Hk1.
  injection Hk0 as <-. injection Hk1 as <-.
  split; [exact Hlines | exact Hchecks].
Defined.

(** The loop on a store where only the second member wrote the tensor:
    both answers are printed, the negative one first. *)
Example query_ensemble_demo :
  let out := @query_ensemble Jinja.env
               [ {| name := "mesh-study_0" |}; {| name := "mesh-study_1" |} ]
               Demo.w0 in
  out.2 = Ok tt
  ∧ stdout out.1 =
      [ "--- {ts1_p0}.U_internal is found for member mesh-study_0? False";
        "--- {ts1_p0}.U_internal is found for member mesh-study_1? True" ]
  ∧ tensor_checks (calls (client out.1)) =
      [ TensorExists "{ts1_p0}.U_internal"; TensorExists "{ts1_p0}.U_internal" ]
  ∧ data_source (addressing (client out.1)) = "mesh-study_1".
Proof. repeat split; reflexivity. Qed.

(** ** Further properties of the resolver *)

(** X1. The resolver only talks to the client: it prints nothing, leaves
    [os.environ] and the store connection as they are, never asks
    [tensor_exists], and only appends to the record of client calls. *)
Theorem get_field_name_frame (E : Environment)
    fn field_name processor timestep ensemble_member w :
  let w1 := (get_field_name fn field_name processor timestep ensemble_member w).1 in
  stdout w1 = stdout w
  ∧ environ w1 = environ w
  ∧ store (client w1) = store (client w)
  ∧ tensor_checks (calls (client w1)) = tensor_checks (calls (client w))
  ∧ ∃ evs, calls (client w1) = (calls (client w) ++ evs)%list.
Proof.
  intros w1.
  destruct (get_field_name_quiet fn field_name processor timestep
              ensemble_member w) as (Hout & Hstore & _ & Henv & Hchecks & _).
  destruct (get_field_name_trace fn field_name processor timestep
              ensemble_member w) as (new & Hw1 & _).
  fold w1 in Hout, Hstore, Hchecks, Henv, Hw1.
  repeat split; try done.
  rewrite Hw1. cbn [log_calls client calls]. by eexists.
Qed.

(** X2. A key is returned only on the complete path: the poll found the
    dataset, the fetch gave it, both metadata fields have a first string,
    both templates rendered, and the key is "{" + dataset segment + "}." +
    field segment. *)
Theorem get_field_name_ok_inv (E : Environment)
    fn field_name processor timestep ensemble_member w key :
  let a := scoped ensemble_member (addressing (client w)) in
  let ds := fn +:+ "_metadata" in
  (get_field_name fn field_name processor timestep ensemble_member w).2 = Ok key →
  store_poll_dataset (store (client w)) a ds 10 1000 = true
  ∧ ∃ meta T_ds r_ds T_f r_f s_ds s_f,
      store_get_dataset (store (client w)) a ds = Ok meta
      ∧ meta_strings meta !! "dataset" = Some (T_ds :: r_ds)
      ∧ meta_strings meta !! "field" = Some (T_f :: r_f)
      ∧ render_template T_ds (ds_kwargs timestep processor) = Ok s_ds
      ∧ render_template T_f (field_kwargs field_name) = Ok s_f
      ∧ key = "{" +:+ s_ds +:+ "}." +:+ s_f.
Proof.
  intros a ds.
  destruct (knows (client w) ensemble_member) eqn:Hknows.
  2: { destruct ensemble_member as [e|]; [|discriminate Hknows].
       by rewrite get_field_name_refused by done. }
  rewrite get_field_name_run by done. fold a ds.
  destruct (store_poll_dataset _ _ _ _ _); cbn [snd];
    [|by destruct (environ w !! "SSKEYIN")].
  intros Hkey. split; [reflexivity|].
  destruct (store_get_dataset _ _ _) as [meta|x]; [|discriminate Hkey].
  cbn in Hkey. unfold key_of_meta, get_meta_strings in Hkey.
  destruct (meta_strings meta !! "dataset") as [[|T_ds r_ds]|] eqn:Hds;
    try discriminate Hkey.
  cbn in Hkey.
  destruct (render_template T_ds _) as [s_ds|] eqn:Hrds; [|discriminate Hkey].
  cbn in Hkey.
  destruct (meta_strings meta !! "field") as [[|T_f r_f]|] eqn:Hf;
    try discriminate Hkey.
  cbn in Hkey.
  destruct (render_template T_f _) as [s_f|] eqn:Hrf; [|discriminate Hkey].
  cbn in Hkey. injection Hkey as <-.
  by exists meta, T_ds, r_ds, T_f, r_f, s_ds, s_f.
Qed.

Lemma get_field_name_ok_inv_witness :
  store_poll_dataset (store (client Demo.w0)) (addressing (client Demo.w0))
    "pUPhiTest_metadata" 10 1000 = true
  ∧ ∃ meta T_ds r_ds T_f r_f s_ds s_f,
      store_get_dataset (store (client Demo.w0)) (addressing (client Demo.w0))
        "pUPhiTest_metadata" = Ok meta
      ∧ meta_strings meta !! "dataset" = Some (T_ds :: r_ds)
      ∧ meta_strings meta !! "field" = Some (T_f :: r_f)
      ∧ @render_template Jinja.env T_ds (ds_kwargs (Some 1) 0) = Ok s_ds
      ∧ @render_template Jinja.env T_f (field_kwargs "U") = Ok s_f
      ∧ "{ts1_p0}.U_internal" = "{" +:+ s_ds +:+ "}." +:+ s_f.
Proof.
  exact (get_field_name_ok_inv Jinja.env "pUPhiTest" "U" 0 (Some 1) None Demo.w0
           "{ts1_p0}.U_internal" eq_refl).
Defined.

(** X3. The poll is trusted only as far as the fetch: when the poll
    reports the dataset and [get_dataset] then raises, the call raises
    that same error; nothing was rendered, and the client was asked for
    the poll and the fetch only. *)
Theorem get_field_name_fetch_error (E : Environment)
    fn field_name processor timestep ensemble_member w x :
  let a := scoped ensemble_member (addressing (client w)) in
  let ds := fn +:+ "_metadata" in
  let out := get_field_name fn field_name processor timestep ensemble_member w in
  knows (client w) ensemble_member = true →
  store_poll_dataset (store (client w)) a ds 10 1000 = true →
  store_get_dataset (store (client w)) a ds = Raise x →
  out.2 = Raise x
  ∧ calls (client out.1) =
      (calls (client w) ++ scope_calls ensemble_member ++
       [PollDataset ds 10 1000; GetDataset ds])%list.
Proof.
  intros a ds out Hknows Hpoll Hget. subst out.
  rewrite get_field_name_run by done. fold a ds. rewrite Hpoll, Hget.
  split; reflexivity.
Qed.

Lemma get_field_name_fetch_error_witness :
  let w := Demo.world_of
             {| store_dataset_exists := λ _ _ _, true;
                store_get_dataset := λ _ _, Raise (StoreError "gone");
                store_tensor_exists := λ _ _, false |} ∅ in
  let out := @get_field_name Jinja.env "pUPhiTest" "U" 0 None None w in
  out.2 = Raise (StoreError "gone")
  ∧ calls (client out.1) =
      [PollDataset "pUPhiTest_metadata" 10 1000; GetDataset "pUPhiTest_metadata"].
Proof.
  intros w out.
  exact (get_field_name_fetch_error Jinja.env "pUPhiTest" "U" 0 None None w
           (StoreError "gone") eq_refl eq_refl eq_refl).
Defined.

(** X4. The dataset template is dealt with before the field entry is
    looked at, and errors come out in that order: an empty "dataset"
    sequence gives [IndexError] and an error of the engine on the dataset
    template is the error of the call, whatever the "field" entry holds;
    only once the dataset segment is rendered does an empty "field"
    sequence give [IndexError] or an engine error on the field template
    become the error of the call. *)
Theorem get_field_name_error_order (E : Environment)
    fn field_name processor timestep ensemble_member w meta :
  let a := scoped ensemble_member (addressing (client w)) in
  let ds := fn +:+ "_metadata" in
  let out := get_field_name fn field_name processor timestep ensemble_member w in
  knows (client w) ensemble_member = true →
  store_poll_dataset (store (client w)) a ds 10 1000 = true →
  store_get_dataset (store (client w)) a ds = Ok meta →
  (meta_strings meta !! "dataset" = Some [] → out.2 = Raise IndexError)
  ∧ (∀ T_ds r_ds x,
       meta_strings meta !! "dataset" = Some (T_ds :: r_ds) →
       render_template T_ds (ds_kwargs timestep processor) = Raise x →
       out.2 = Raise x)
  ∧ (∀ T_ds r_ds s_ds,
       meta_strings meta !! "dataset" = Some (T_ds :: r_ds) →
       render_template T_ds (ds_kwargs timestep processor) = Ok s_ds →
       (meta_strings meta !! "field" = Some [] → out.2 = Raise IndexError)
       ∧ (∀ T_f r_f x,
            meta_strings meta !! "field" = Some (T_f :: r_f) →
            render_template T_f (field_kwargs field_name) = Raise x →
            out.2 = Raise x)).
Proof.
  intros a ds out Hknows Hpoll Hget. subst out.
  rewrite (get_field_name_found _ _ _ _ _ _ meta) by done. cbn [snd].
  unfold key_of_meta, get_meta_strings.
  split; [|split].
  - by intros ->.
  - intros T_ds r_ds x -> Hr. cbn. by rewrite Hr.
  - intros T_ds r_ds s_ds -> Hr. cbn. rewrite Hr. cbn. split.
    + by intros ->.
    + intros T_f r_f x -> Hrf. cbn. by rewrite Hrf.
Qed.

Lemma get_field_name_error_order_witness :
  (@get_field_name Jinja.env "pUPhiTest" "U" 0 (Some 1) None
     (Demo.world_of
        (Demo.store_of (Demo.naming [] ["{{name}}"]) "mesh-study_0" []) ∅)).2
  = Raise IndexError.
Proof.
  exact (proj1 (get_field_name_error_order Jinja.env "pUPhiTest" "U" 0 (Some 1) None
                  (Demo.world_of
                     (Demo.store_of (Demo.naming [] ["{{name}}"]) "mesh-study_0" []) ∅)
                  (Demo.naming [] ["{{name}}"]) eq_refl eq_refl eq_refl) eq_refl).
Defined.

(** X5. A call that names a member the client knows does not depend on
    the scope earlier calls left on the client: started from any other
    addressing state it returns the same result and leaves the same
    world. *)
Theorem member_call_ignores_prior_scope (E : Environment)
    fn field_name processor timestep e w a0 :
  knows (client w) (Some e) = true →
  get_field_name fn field_name processor timestep (Some e) (with_scope a0 w) =
  get_field_name fn field_name processor timestep (Some e) w.
Proof.
  intros Hknows. rewrite !get_field_name_run by done.
  cbn [scoped with_scope client addressing store environ].
  destruct (store_poll_dataset _ _ _ _ _); reflexivity.
Qed.

Lemma member_call_ignores_prior_scope_witness :
  let e := {| name := "mesh-study_1" |} in
  let a0 := {| data_source := "mesh-study_0";
               dataset_prefix := true;
               list_prefix := false;
               model_prefix := true;
               tensor_prefix := false |} in
  @get_field_name Jinja.env "pUPhiTest" "U" 0 (Some 1) (Some e) (with_scope a0 Demo.w0) =
  @get_field_name Jinja.env "pUPhiTest" "U" 0 (Some 1) (Some e) Demo.w0.
Proof.
  intros e a0.
  exact (member_call_ignores_prior_scope Jinja.env "pUPhiTest" "U" 0 (Some 1)
           e Demo.w0 a0 eq_refl).
Defined.

(** X6. The not-found message names the dataset and the whole value of
    SSKEYIN, not the data source that was searched: when the poll fails,
    the error is the same for every member (or none), field, processor and
    timestep the call was given. *)
Theorem not_found_error_ignores_member (E : Environment)
    fn field1 proc1 step1 em1 field2 proc2 step2 em2 w :
  let ds := fn +:+ "_metadata" in
  knows (client w) em1 = true →
  knows (client w) em2 = true →
  store_poll_dataset (store (client w))
    (scoped em1 (addressing (client w))) ds 10 1000 = false →
  store_poll_dataset (store (client w))
    (scoped em2 (addressing (client w))) ds 10 1000 = false →
  (get_field_name fn field1 proc1 step1 em1 w).2 =
  (get_field_name fn field2 proc2 step2 em2 w).2.
Proof.
  intros ds Hk1 Hk2 Hp1 Hp2.
  rewrite !get_field_name_missing by done. reflexivity.
Qed.

Lemma not_found_error_ignores_member_witness :
  let w := Demo.world_of Demo.empty_store {[ "SSKEYIN" := "mesh-study_0,mesh-study_1" ]} in
  (@get_field_name Jinja.env "pUPhiTest" "U" 0 (Some 1)
     (Some {| name := "mesh-study_1" |}) w).2 =
  (@get_field_name Jinja.env "pUPhiTest" "p" 3 None None w).2.
Proof.
  intros w.
  exact (not_found_error_ignores_member Jinja.env "pUPhiTest" "U" 0 (Some 1)
           (Some {| name := "mesh-study_1" |}) "p" 3 None None w
           eq_refl eq_refl eq_refl eq_refl).
Defined.

(** ** Further properties of the loop and of the script *)

(** X7. The loop stops at the first member whose resolution raises: the
    error is the error of the script, the world is the one that failed
    call left, the failing member gets no [tensor_exists] call and no
    line, and nothing at all is done for the members after it. *)
Theorem query_ensemble_stops (E : Environment) done e rest w wk x :
  let failed := get_field_name fn_name "U" 0 (Some 1) (Some e) wk in
  let out := query_ensemble (done ++ e :: rest) w in
  query_ensemble done w = (wk, Ok tt) →
  failed.2 = Raise x →
  out = (failed.1, Raise x)
  ∧ stdout out.1 = stdout wk
  ∧ tensor_checks (calls (client out.1)) = tensor_checks (calls (client wk))
  ∧ sources (calls (client out.1)) = (sources (calls (client wk)) ++ [name e])%list.
Proof.
  intros failed out Hdone Hfail. subst out.
  rewrite (query_ensemble_app done (e :: rest) w wk Hdone).
  cbn [query_ensemble]. unfold mbind, M_bind. rewrite query_member_run.
  destruct (get_field_name_quiet fn_name "U" 0 (Some 1) (Some e) wk)
    as (Hout & _ & _ & _ & Hchecks & Hsrc).
  fold failed in Hout, Hchecks, Hsrc |- *.
  destruct failed as [gw r]. cbn [fst snd] in *. subst r.
  split; [reflexivity|]. split; [exact Hout|]. split; [exact Hchecks | exact Hsrc].
Qed.

Lemma query_ensemble_stops_witness :
  let w := Demo.world_of Demo.empty_store
             {[ "SSKEYIN" := "mesh-study_0,mesh-study_1" ]} in
  let out := @query_ensemble Jinja.env
               [ {| name := "mesh-study_0" |}; {| name := "mesh-study_1" |} ] w in
  out.2 = Raise (ValueError
            "Could not find dataset pUPhiTest_metadata under prefix 'mesh-study_0,mesh-study_1'")
  ∧ stdout out.1 = []
  ∧ sources (calls (client out.1)) = ["mesh-study_0"].
Proof.
  intros w out.
  destruct (query_ensemble_stops Jinja.env [] {| name := "mesh-study_0" |}
              [ {| name := "mesh-study_1" |} ] w w
              (ValueError
                 "Could not find dataset pUPhiTest_metadata under prefix 'mesh-study_0,mesh-study_1'")
              eq_refl eq_refl) as (Hout & Hstdout & _ & Hsrc).
  split; [exact (f_equal snd Hout)|]. split; [exact Hstdout | exact Hsrc].
Defined.

(** X8. A loop that completes has set the data source once per member,
    in the order of the ensemble, and leaves the client scoped to the last
    member, with all four prefixes enabled. *)
Theorem query_ensemble_sources (E : Environment) ensemble w w' :
  query_ensemble ensemble w = (w', Ok tt) →
  sources (calls (client w')) =
    (sources (calls (client w)) ++ map name ensemble)%list
  ∧ ∀ e, last ensemble = Some e →
      addressing (client w') =
        {| data_source := name e;
           dataset_prefix := true;
           list_prefix := true;
           model_prefix := true;
           tensor_prefix := true |}.
Proof.
  intros Hrun.
  destruct (query_ensemble_ok ensemble w w' Hrun) as (_ & _ & _ & _ & Hsrc & Hlast & _).
  split; [exact Hsrc|]. intros e He. by rewrite (Hlast e He).
Qed.

Lemma query_ensemble_sources_witness :
  let ensemble := [ {| name := "mesh-study_0" |}; {| name := "mesh-study_1" |} ] in
  let w' := (@query_ensemble Jinja.env ensemble Demo.w0).1 in
  sources (calls (client w')) = ["mesh-study_0"; "mesh-study_1"]
  ∧ data_source (addressing (client w')) = "mesh-study_1".
Proof.
  intros ensemble w'.
  destruct (query_ensemble_sources Jinja.env ensemble Demo.w0 w') as [Hsrc Hlast].
  { vm_compute. reflexivity. }
  split; [exact Hsrc|].
  by rewrite (Hlast {| name := "mesh-study_1" |} eq_refl).
Defined.




Lemma string_app_nil_r (s : string) : s +:+ "" = s.
Proof.
  induction s as [|c s IH]; [reflexivity|].
  change (String c (s +:+ "") = String c s). by rewrite IH.
Qed.

Lemma occurs_in_refl (s : string) : occurs_in s s.
Proof. exists "", "". by rewrite string_app_nil_r. Qed.

Lemma concat_cons_cons (sep x y : string) (l : list string) :
  String.concat sep (x :: y :: l) = x +:+ sep +:+ String.concat sep (y :: l).
Proof. reflexivity. Qed.

(** Every joined string occurs in the result of the join. *)
Lemma occurs_in_concat (sep s : string) (l : list string) :
  s ∈ l → occurs_in s (String.concat sep l).
Proof.
  induction l as [|x [|y l] IH]; intros Hin.
  - by apply elem_of_nil in Hin.
  - apply list_elem_of_singleton in Hin as ->. apply occurs_in_refl.
  - rewrite concat_cons_cons.
    apply elem_of_cons in Hin as [-> | Hin]; [apply occurs_in_here|].
    by apply occurs_in_app_l, occurs_in_app_l, IH.
Qed.

(** X10. Lines 95 and 96 set SSKEYIN to the names of the members joined
    by commas, so that every member's name occurs in it, change no other
    variable, print that value and do not touch the client; the statement
    cannot fail. *)
Theorem set_data_sources_sets_SSKEYIN ensemble w :
  let joined := String.concat "," (map name ensemble) in
  let out := set_data_sources ensemble w in
  out.2 = Ok tt
  ∧ environ out.1 !! "SSKEYIN" = Some joined
  ∧ (∀ k, k ≠ "SSKEYIN" → environ out.1 !! k = environ w !! k)
  ∧ stdout out.1 = (stdout w ++ [joined])%list
  ∧ client out.1 = client w
  ∧ ∀ e, e ∈ ensemble → occurs_in (name e) joined.
Proof.
  intros joined out. subst out. rewrite set_data_sources_run.
  cbn [fst snd client environ stdout]. fold joined.
  split; [reflexivity|]. split; [apply lookup_insert_eq|].
  split; [by intros k Hk; apply lookup_insert_ne|].
  split; [reflexivity|]. split; [reflexivity|].
  intros e He. apply occurs_in_concat. by apply list_elem_of_fmap_2.
Qed.

Lemma set_data_sources_sets_SSKEYIN_witness :
  let ensemble := [ {| name := "mesh-study_0" |}; {| name := "mesh-study_1" |} ] in
  let out := set_data_sources ensemble
               (Demo.world_of Demo.empty_store {[ "HOME" := "/root" ]}) in
  environ out.1 !! "SSKEYIN" = Some "mesh-study_0,mesh-study_1"
  ∧ environ out.1 !! "HOME" = Some "/root"
  ∧ stdout out.1 = ["mesh-study_0,mesh-study_1"]
  ∧ occurs_in "mesh-study_1" "mesh-study_0,mesh-study_1".
Proof.
  intros ensemble out.
  destruct (set_data_sources_sets_SSKEYIN ensemble
              (Demo.world_of Demo.empty_store {[ "HOME" := "/root" ]}))
    as (_ & Henv & Hother & Hstdout & _ & Hnames).
  split; [exact Henv|]. split.
  - transitivity (environ (Demo.world_of Demo.empty_store {[ "HOME" := "/root" ]})
                    !! "HOME"); [|reflexivity].
    apply (Hother "HOME"). discriminate.
  - split; [exact Hstdout|].
    apply (Hnames {| name := "mesh-study_1" |}).
    apply elem_of_cons; right. apply elem_of_cons; left. reflexivity.
Defined.

(** X11. In the script the not-found path cannot end in [KeyError]:
    SSKEYIN is set before the first call and nothing in the loop changes
    it, so the first member whose metadata dataset is not found stops the
    script with the [ValueError] that names the dataset and the joined
    member names.  (The member is one the client of line 100 knows.) *)
Theorem query_script_missing_metadata (E : Environment) done e rest w wk :
  let ensemble := (done ++ e :: rest)%list in
  let joined := String.concat "," (map name ensemble) in
  knows (client w) (Some e) = true →
  query_ensemble done (set_data_sources ensemble w).1 = (wk, Ok tt) →
  store_poll_dataset (store (client wk))
    (scoped (Some e) (addressing (client wk))) "pUPhiTest_metadata" 10 1000 = false →
  (query_script ensemble w).2 =
    Raise (ValueError (not_found_message "pUPhiTest_metadata" joined))
  ∧ occurs_in (name e) joined.
Proof.
  intros ensemble joined Hknows Hdone Hpoll. split.
  - by apply (query_script_not_found done e rest w wk).
  - apply occurs_in_concat, list_elem_of_fmap_2.
    apply elem_of_app. right. apply elem_of_cons. by left.
Qed.

Lemma query_script_missing_metadata_witness :
  (@query_script Jinja.env [ {| name := "mesh-study_0" |}; {| name := "mesh-study_1" |} ]
     (Demo.world_of Demo.empty_store ∅)).2 =
    Raise (ValueError
      "Could not find dataset pUPhiTest_metadata under prefix 'mesh-study_0,mesh-study_1'").
Proof.
  exact (proj1 (query_script_missing_metadata Jinja.env [] {| name := "mesh-study_0" |}
                  [ {| name := "mesh-study_1" |} ] (Demo.world_of Demo.empty_store ∅)
                  _ eq_refl eq_refl eq_refl)).
Defined.

(** X12. In a script run that completes, the data sources set on the
    client are the members' names in order, these are exactly the names
    joined in SSKEYIN, and SSKEYIN still holds them at the end; the output
    is the SSKEYIN line followed by one line per member. *)
Theorem query_script_completes (E : Environment) ensemble w w' :
  let joined := String.concat "," (map name ensemble) in
  query_script ensemble w = (w', Ok tt) →
  sources (calls (client w')) =
    (sources (calls (client w)) ++ map name ensemble)%list
  ∧ environ w' !! "SSKEYIN" = Some joined
  ∧ ∃ lines,
      stdout w' = (stdout w ++ joined :: lines)%list
      ∧ length lines = length ensemble.
Proof.
  intros joined Hrun. unfold query_script, mbind at 1, M_bind in Hrun.
  rewrite set_data_sources_run in Hrun.
  destruct (query_ensemble_ok ensemble _ w' Hrun)
    as (keys & Hkeys & Hlines & _ & Hsrc & _ & _ & _ & Henv').
  cbn [client environ stdout] in Hsrc, Henv', Hlines.
  split; [exact Hsrc|]. split; [rewrite Henv'; apply lookup_insert_eq|].
  eexists. split.
  - rewrite Hlines. by rewrite <- app_assoc.
  - rewrite length_zip_with. apply Forall2_length in Hkeys. lia.
Qed.

Lemma query_script_completes_witness :
  let ensemble := [ {| name := "mesh-study_0" |}; {| name := "mesh-study_1" |} ] in
  let w' := (@query_script Jinja.env ensemble Demo.w0).1 in
  sources (calls (client w')) = ["mesh-study_0"; "mesh-study_1"]
  ∧ environ w' !! "SSKEYIN" = Some "mesh-study_0,mesh-study_1"
  ∧ ∃ lines,
      stdout w' = "mesh-study_0,mesh-study_1" :: lines
      ∧ length lines = 2%nat.
Proof.
  intros ensemble w'.
  apply (query_script_completes Jinja.env ensemble Demo.w0 w').
  vm_compute. reflexivity.
Defined.

(** X13. With templates made of literal text and name references, every
    parameter the resolver supplies shows up where the template refers to
    it: the processor and a given timestep in decimal in the dataset
    segment, the field name and the patch, always "internal", in the field
    segment. *)
Theorem referenced_parameters_appear
    fn field_name processor timestep ensemble_member w meta
    T_ds r_ds T_f r_f ns_ds ns_f :
  let a := scoped ensemble_member (addressing (client w)) in
  let ds := fn +:+ "_metadata" in
  knows (client w) ensemble_member = true →
  store_poll_dataset (store (client w)) a ds 10 1000 = true →
  store_get_dataset (store (client w)) a ds = Ok meta →
  meta_strings meta !! "dataset" = Some (T_ds :: r_ds) →
  meta_strings meta !! "field" = Some (T_f :: r_f) →
  Jinja.parse T_ds = Some ns_ds →
  Jinja.parse T_f = Some ns_f →
  ∃ s_ds s_f,
    (@get_field_name Jinja.env fn field_name processor timestep
       ensemble_member w).2 = Ok ("{" +:+ s_ds +:+ "}." +:+ s_f)
    ∧ (Jinja.TName "mpi_rank" ∈ ns_ds → occurs_in (pretty processor) s_ds)
    ∧ (∀ t, timestep = Some t → Jinja.TName "time_index" ∈ ns_ds →
         occurs_in (pretty t) s_ds)
    ∧ (Jinja.TName "name" ∈ ns_f → occurs_in field_name s_f)
    ∧ (Jinja.TName "patch" ∈ ns_f → occurs_in "internal" s_f).
Proof.
  intros a ds Hknows Hpoll Hget Hds Hf Hpds Hpf.
  exists (Jinja.render_nodes (ds_kwargs timestep processor) ns_ds),
         (Jinja.render_nodes (field_kwargs field_name) ns_f).
  split; [|split; [|split; [|split]]].
  - rewrite (get_field_name_found _ _ _ _ _ _ meta) by done. cbn [snd].
    rewrite (key_of_meta_heads _ _ _ _ _ _ _ _ Hds Hf).
    by rewrite (render_template_parse _ _ _ Hpds), (render_template_parse _ _ _ Hpf).
  - intros Hin. by apply (render_nodes_occurs _ _ "mpi_rank" (PyInt processor)).
  - intros t -> Hin. by apply (render_nodes_occurs _ _ "time_index" (PyInt t)).
  - intros Hin. by apply (render_nodes_occurs _ _ "name" (PyStr field_name)).
  - intros Hin. by apply (render_nodes_occurs _ _ "patch" (PyStr "internal")).
Qed.

Lemma referenced_parameters_appear_witness :
  ∃ s_ds s_f,
    (@get_field_name Jinja.env "pUPhiTest" "p" 3 (Some 20) None Demo.w0).2
      = Ok ("{" +:+ s_ds +:+ "}." +:+ s_f)
    ∧ (Jinja.TName "mpi_rank" ∈
         [Jinja.TData "ts"; Jinja.TName "time_index"; Jinja.TData "_p";
          Jinja.TName "mpi_rank"] → occurs_in "3" s_ds)
    ∧ (∀ t, Some 20 = Some t →
         Jinja.TName "time_index" ∈
           [Jinja.TData "ts"; Jinja.TName "time_index"; Jinja.TData "_p";
            Jinja.TName "mpi_rank"] → occurs_in (pretty t) s_ds)
    ∧ (Jinja.TName "name" ∈
         [Jinja.TName "name"; Jinja.TData "_"; Jinja.TName "patch"] →
       occurs_in "p" s_f)
    ∧ (Jinja.TName "patch" ∈
         [Jinja.TName "name"; Jinja.TData "_"; Jinja.TName "patch"] →
       occurs_in "internal" s_f).
Proof.
  exact (referenced_parameters_appear "pUPhiTest" "p" 3 (Some 20) None Demo.w0
           Demo.std_naming "ts{{time_index}}_p{{mpi_rank}}" [] "{{name}}_{{patch}}" []
           [Jinja.TData "ts"; Jinja.TName "time_index"; Jinja.TData "_p";
            Jinja.TName "mpi_rank"]
           [Jinja.TName "name"; Jinja.TData "_"; Jinja.TName "patch"]
           eq_refl eq_refl eq_refl eq_refl eq_refl eq_refl eq_refl).
Defined.
